(** * ComplexNumber: a shallow embedding of [src/complexNumber.js]

    The JavaScript class stores a complex number in both rectangular and
    polar form.  Its numbers are IEEE-754 binary64 values, which are
    embedded here as Rocq's primitive [float]s: [+], [-], [*], [/],
    [Math.sqrt], [Math.abs] and the comparisons are the primitive
    operations, and the remainder operator [%] is written out from its
    ECMA-262 definition.  The transcendental functions of [Math] are
    implementation-approximated in ECMA-262, so the development is
    parametric in them (class [HostMath]). *)

From Stdlib Require Import ZArith Floats Bool Lia String.

Set Warnings "-inexact-float".

Local Open Scope float_scope.

(** ** Errors and the result monad *)

(** The error taxonomy of the specification.  In the source every failure
    is a plain [Error] thrown by an assertion. *)
Inductive Error : Type :=
| InvalidArgument
| RangeViolation
| DivisionByZero.

Inductive result (A : Type) : Type :=
| Ok (a : A)
| Throw (e : Error).

Arguments Ok {A} a.
Arguments Throw {A} e.

Definition bind {A B : Type} (r : result A) (k : A -> result B) : result B :=
  match r with
  | Ok a => k a
  | Throw e => Throw e
  end.

Notation "x <- c ;; k" := (bind c (fun x => k))
  (at level 61, c at next level, right associativity).
Notation "c ;;; k" := (bind c (fun _ => k))
  (at level 61, right associativity).

Definition throws {A : Type} (r : result A) : bool :=
  match r with
  | Ok _ => false
  | Throw _ => true
  end.

(** ** IEEE-754 helpers *)

Module Number.

(** [Number.isInteger]: finite and without fractional part. *)
Definition SFis_integer (x : spec_float) : bool :=
  match x with
  | S754_zero _ => true
  | S754_finite _ m e =>
      match e with
      | Zneg p => Z.eqb (Z.modulo (Zpos m) (Z.pow 2 (Zpos p))) 0
      | _ => true
      end
  | _ => false
  end.

Definition isInteger (x : float) : bool := SFis_integer (Prim2SF x).

(** [Number.isFinite]: neither [NaN] nor an infinity. *)
Definition isFinite (x : float) : bool :=
  match Prim2SF x with
  | S754_zero _ | S754_finite _ _ _ => true
  | _ => false
  end.

(** Not [NaN] and either a zero or of positive sign: the values [x] for
    which [0 <= x] holds. *)
Definition SFnonneg (x : spec_float) : bool :=
  match x with
  | S754_zero _ | S754_infinity false | S754_finite false _ _ => true
  | _ => false
  end.

(** ECMA-262 [Number::remainder (n, d)], the [%] operator: the result has
    the sign of the dividend and is exact. *)
Definition SFrem (n d : spec_float) : spec_float :=
  match n, d with
  | S754_nan, _ | _, S754_nan => S754_nan
  | S754_infinity _, _ => S754_nan
  | _, S754_infinity _ => n
  | _, S754_zero _ => S754_nan
  | S754_zero _, _ => n
  | S754_finite sn mn en, S754_finite _ md ed =>
      let ez := Z.min en ed in
      let r := Z.rem (Zpos (fst (shl_align mn en ez)))
                     (Zpos (fst (shl_align md ed ez))) in
      match r with
      | Z0 => S754_zero sn
      | _ => binary_normalize prec emax (cond_Zopp sn r) ez false
      end
  end.

Definition rem (n d : float) : float := SF2Prim (SFrem (Prim2SF n) (Prim2SF d)).

End Number.

(** The source's [n % d]; written [%%] because [%] delimits scopes in Rocq. *)
Notation "x %% y" := (Number.rem x y) (at level 40, left associativity) : float_scope.

(** ** The host's [Math] object

    [Math.cos], [Math.sin], [Math.atan2] and the exponentiation operator
    [**] ([Math.pow]) are implementation-approximated.  The laws are the
    exact cases that ECMA-262 (21.3.2) prescribes and that the constants of
    the class depend on, together with the squaring case [x ** 2 = x * x]
    of the fdlibm-derived [pow] that the engines ship. *)

Definition PI : float := 0x1.921fb54442d18p+1.

Class HostMath : Type := {
  cos : float -> float;
  sin : float -> float;
  atan2 : float -> float -> float;
  pow : float -> float -> float;
  log : float -> float;
  (** [Math.cos]: "if x is either +0 or -0, return 1". *)
  cos_zero : forall x, PrimFloat.is_zero x = true -> cos x = 1;
  (** [Math.sin]: "if x is one of +0, -0, return x". *)
  sin_zero : forall x, PrimFloat.is_zero x = true -> sin x = x;
  (** [Math.atan2]: "if y is +0 and x > +0, return +0". *)
  atan2_zero_pos : forall x, (0 <? x) = true -> atan2 0 x = 0;
  (** [x ** 2] is the correctly rounded product. *)
  pow_two : forall x, pow x 2 = x * x
}.

(** ** JavaScript values *)

Record ComplexNumber : Type := {
  real : float;
  imaginary : float;
  modulus : float;
  argument : float
}.

Inductive JsValue : Type :=
| JsNumber (x : float)
| JsBigInt (z : Z)
| JsString (s : string)
| JsBoolean (b : bool)
| JsNull
| JsUndefined
| JsSymbol (description : string)
| JsObject
| JsComplexNumber (c : ComplexNumber).

Coercion JsNumber : float >-> JsValue.

(** [typeof value === "number"] and [value instanceof ComplexNumber]. *)
Definition typeofNumber (value : JsValue) : bool :=
  match value with
  | JsNumber _ => true
  | _ => false
  end.

Definition instanceofComplexNumber (value : JsValue) : bool :=
  match value with
  | JsComplexNumber _ => true
  | _ => false
  end.

(** ** Assertions *)

Module Assertions.

(** Modelled from the spec: the package [@ceilingcat/assertions] is not
    among the sources.  The specification describes the numeric checks as
    "type-validation only", and has [Infinity] and [NaN] flow through
    [power] and [Log] without an error: a value passes [isNumber] exactly
    when its type is number. *)
Definition isNumber (value : JsValue) : result float :=
  match value with
  | JsNumber x => Ok x
  | _ => Throw InvalidArgument
  end.

(** Modelled from the spec: "validates modulus >= 0"; a negative modulus
    is a [RangeViolation]. *)
Definition isNonNegativeNumber (value : JsValue) : result float :=
  x <- isNumber value ;;
  if 0 <=? x then Ok x else Throw RangeViolation.

(** Modelled from the spec: "degree must be a positive integer". *)
Definition isPositiveNumber (value : JsValue) : result float :=
  x <- isNumber value ;;
  if 0 <? x then Ok x else Throw InvalidArgument.

(** Modelled from the spec: "whole-number check, fails with
    InvalidArgument otherwise". *)
Definition isIntegerNumber (value : JsValue) : result float :=
  x <- isNumber value ;;
  if Number.isInteger x then Ok x else Throw InvalidArgument.

(** Modelled from the spec: "a value is not an instance of the
    complex-number type where one is required" is an [InvalidArgument]. *)
Definition isInstanceOfComplexNumber (value : JsValue) : result ComplexNumber :=
  match value with
  | JsComplexNumber c => Ok c
  | _ => Throw InvalidArgument
  end.

(** Modelled from the spec: a guard that does not hold is a failed
    precondition; the caller names the error. *)
Definition withGuard (e : Error) (guard : bool) : result unit :=
  if guard then Ok tt else Throw e.

End Assertions.

(** ** The class *)

Definition TWO_PI : float := PI + PI.

Module ComplexNumberConfig.
Definition TOLERANCE : float := 1e-12.
End ComplexNumberConfig.

Definition TOLERANCE : float := ComplexNumberConfig.TOLERANCE.

(** [Math.abs(a - b) <= TOLERANCE] on numbers. *)
Definition within (a b : float) : bool := PrimFloat.abs (a - b) <=? TOLERANCE.

Definition withinTolerance (a b : JsValue) : result bool :=
  a <- Assertions.isNumber a ;;
  b <- Assertions.isNumber b ;;
  Ok (within a b).

(** The constructor: the four arguments are type checked, nothing more. *)
Definition new_ComplexNumber (real imaginary modulus argument : JsValue)
  : result ComplexNumber :=
  re <- Assertions.isNumber real ;;
  im <- Assertions.isNumber imaginary ;;
  m <- Assertions.isNonNegativeNumber modulus ;;
  a <- Assertions.isNumber argument ;;
  Ok {| real := re; imaginary := im; modulus := m; argument := a |}.

(** The getters [re], [im], [mod] and [arg] ([mod] is a reserved word of
    the arithmetic notations). *)
Definition re (this : ComplexNumber) : float := real this.
Definition im (this : ComplexNumber) : float := imaginary this.
Definition mod_ (this : ComplexNumber) : float := modulus this.
Definition arg (this : ComplexNumber) : float := argument this.

Section Class.

Context {M : HostMath}.

Definition principalArgument (real imaginary : JsValue) : result float :=
  re <- Assertions.isNumber real ;;
  im <- Assertions.isNumber imaginary ;;
  Ok (atan2 im re).

Definition modulusSquared (real imaginary : JsValue) : result float :=
  re <- Assertions.isNumber real ;;
  im <- Assertions.isNumber imaginary ;;
  Ok (pow re 2 + pow im 2).

Definition argumentOf (real imaginary : JsValue) : result float :=
  re <- Assertions.isNumber real ;;
  im <- Assertions.isNumber imaginary ;;
  zr <- withinTolerance re 0 ;;
  zi <- (if zr then withinTolerance im 0 else Ok false) ;;
  if zr && zi then Ok 0
  else
    p <- principalArgument re im ;;
    Ok (if p <? 0 then p + TWO_PI else p).

Definition rectangularToPolar (real imaginary : JsValue) : result (float * float) :=
  re <- Assertions.isNumber real ;;
  im <- Assertions.isNumber imaginary ;;
  m2 <- modulusSquared re im ;;
  a <- argumentOf re im ;;
  Ok (PrimFloat.sqrt m2, a).

Definition polarToRectangular (modulus argument : JsValue) : result (float * float) :=
  m <- Assertions.isNonNegativeNumber modulus ;;
  a <- Assertions.isNumber argument ;;
  Ok (cos a * m, sin a * m).

Definition createRectangular (real imaginary : JsValue) : result ComplexNumber :=
  re <- Assertions.isNumber real ;;
  im <- Assertions.isNumber imaginary ;;
  p <- rectangularToPolar re im ;;
  new_ComplexNumber re im (fst p) (snd p).

Definition createPolar (modulus argument : JsValue) : result ComplexNumber :=
  m <- Assertions.isNonNegativeNumber modulus ;;
  a <- Assertions.isNumber argument ;;
  z <- withinTolerance m 0 ;;
  let a :=
    if z then 0
    else
      let a := a %% TWO_PI in
      if a <? 0 then a + TWO_PI else a in
  r <- polarToRectangular m a ;;
  new_ComplexNumber (fst r) (snd r) m a.

(** The constants [ZERO] and [EAST] as the module evaluates them when it
    is loaded: [createRectangular(0, 0)] and [createRectangular(1, 0)]
    (lemmas [ZERO_created] and [EAST_created]). *)
Definition ZERO : ComplexNumber :=
  {| real := 0; imaginary := 0; modulus := 0; argument := 0 |}.

Definition EAST : ComplexNumber :=
  {| real := 1; imaginary := 0; modulus := 1; argument := 0 |}.

Definition withAssertedComplexNumber (value : JsValue) : result ComplexNumber :=
  Assertions.isInstanceOfComplexNumber value.

Definition equals (this : ComplexNumber) (that : JsValue) : result bool :=
  that <- withAssertedComplexNumber that ;;
  r <- withinTolerance (real this) (re that) ;;
  if r then withinTolerance (imaginary this) (im that) else Ok false.

Definition withAssertedNotZero (complexNumber : JsValue) : result ComplexNumber :=
  c <- withAssertedComplexNumber complexNumber ;;
  z <- equals c (JsComplexNumber ZERO) ;;
  Assertions.withGuard DivisionByZero (negb z) ;;;
  Ok c.

(** The getter [principalArgument]. *)
Definition get_principalArgument (this : ComplexNumber) : float :=
  atan2 (imaginary this) (real this).

Definition conjugate (this : ComplexNumber) : result ComplexNumber :=
  createRectangular (real this) (- imaginary this).

Definition add (this : ComplexNumber) (addend : JsValue) : result ComplexNumber :=
  addend <- withAssertedComplexNumber addend ;;
  createRectangular (re addend + re this) (im addend + im this).

Definition subtract (this : ComplexNumber) (subtrahend : JsValue)
  : result ComplexNumber :=
  subtrahend <- withAssertedComplexNumber subtrahend ;;
  createRectangular (re this - re subtrahend) (im this - im subtrahend).

Definition multiply (this : ComplexNumber) (factor : JsValue) : result ComplexNumber :=
  factor <- withAssertedComplexNumber factor ;;
  createPolar (modulus this * mod_ factor) (argument this + arg factor).

Definition power (this : ComplexNumber) (exponent : JsValue) : result ComplexNumber :=
  exponent <- Assertions.isIntegerNumber exponent ;;
  createPolar (pow (modulus this) exponent) (argument this * exponent).

Definition root (this : ComplexNumber) (degree : JsValue) : result ComplexNumber :=
  Assertions.isPositiveNumber degree ;;;
  degree <- Assertions.isIntegerNumber degree ;;
  let modulus := pow (modulus this) (1 / degree) in
  let principalArgument := get_principalArgument this / degree in
  createPolar modulus principalArgument.

Definition divide (this : ComplexNumber) (denominator : JsValue)
  : result ComplexNumber :=
  denominator <- withAssertedNotZero denominator ;;
  createPolar (modulus this / mod_ denominator) (argument this - arg denominator).

Definition normalise (this : ComplexNumber) : result ComplexNumber :=
  withAssertedNotZero (JsComplexNumber this) ;;;
  createPolar 1 (argument this).

Definition Log (this : ComplexNumber) : result ComplexNumber :=
  createRectangular (log (modulus this)) (get_principalArgument this).

Definition inverse (this : ComplexNumber) : result ComplexNumber :=
  divide EAST (JsComplexNumber this).

Definition negate (this : ComplexNumber) : result ComplexNumber :=
  z <- equals this (JsComplexNumber ZERO) ;;
  if z then Ok ZERO
  else createRectangular (- re this) (- im this).

Definition scale (this : ComplexNumber) (number : JsValue) : result ComplexNumber :=
  number <- Assertions.isNumber number ;;
  createRectangular (real this * number) (imaginary this * number).

(** The other constants, as the calls that the module makes for them when
    it is loaded; [i] is [NORTH]. *)
Definition NORTH : result ComplexNumber := createRectangular 0 1.
Definition WEST : result ComplexNumber := createRectangular (-1) 0.
Definition SOUTH : result ComplexNumber := createRectangular 0 (-1).
Definition NORTH_EAST : result ComplexNumber := createPolar 1 (PI / 4).
Definition NORTH_WEST : result ComplexNumber := createPolar 1 (3 * PI / 4).
Definition SOUTH_WEST : result ComplexNumber := createPolar 1 (5 * PI / 4).
Definition SOUTH_EAST : result ComplexNumber := createPolar 1 (7 * PI / 4).

(** *** What the factories store

    The argument that [createPolar] passes on to the constructor, and the
    argument that [#argumentOf] computes for [createRectangular]. *)
Definition reducedArgument (m a : float) : float :=
  if within m 0 then 0
  else
    let a := a %% TWO_PI in
    if a <? 0 then a + TWO_PI else a.

Definition storedArgument (r i : float) : float :=
  if within r 0 && within i 0 then 0
  else
    let p := atan2 i r in
    if p <? 0 then p + TWO_PI else p.

(** *** Instances that the class hands out

    An instance comes from one of the two factories, from an operation
    or accessor of an existing instance, or is one of the constants. *)
Inductive produced : ComplexNumber -> Prop :=
| produced_createRectangular (r i : JsValue) (c : ComplexNumber) :
    createRectangular r i = Ok c -> produced c
| produced_createPolar (m a : JsValue) (c : ComplexNumber) :
    createPolar m a = Ok c -> produced c
| produced_conjugate (x c : ComplexNumber) :
    conjugate x = Ok c -> produced c
| produced_negate (x c : ComplexNumber) :
    negate x = Ok c -> produced c
| produced_inverse (x c : ComplexNumber) :
    inverse x = Ok c -> produced c
| produced_add (x : ComplexNumber) (v : JsValue) (c : ComplexNumber) :
    add x v = Ok c -> produced c
| produced_subtract (x : ComplexNumber) (v : JsValue) (c : ComplexNumber) :
    subtract x v = Ok c -> produced c
| produced_multiply (x : ComplexNumber) (v : JsValue) (c : ComplexNumber) :
    multiply x v = Ok c -> produced c
| produced_divide (x : ComplexNumber) (v : JsValue) (c : ComplexNumber) :
    divide x v = Ok c -> produced c
| produced_power (x : ComplexNumber) (v : JsValue) (c : ComplexNumber) :
    power x v = Ok c -> produced c
| produced_root (x : ComplexNumber) (v : JsValue) (c : ComplexNumber) :
    root x v = Ok c -> produced c
| produced_scale (x : ComplexNumber) (v : JsValue) (c : ComplexNumber) :
    scale x v = Ok c -> produced c
| produced_normalise (x c : ComplexNumber) :
    normalise x = Ok c -> produced c
| produced_Log (x c : ComplexNumber) :
    Log x = Ok c -> produced c
| produced_ZERO : produced ZERO
| produced_EAST : produced EAST.

(** *** The dual-representation invariant

    The rectangular fields are within tolerance of the ones recomputed
    from the polar fields, the modulus is not negative, and a modulus
    within tolerance of 0 comes with the argument 0. *)
Definition dualRepresentation (c : ComplexNumber) : Prop :=
  within (cos (argument c) * modulus c) (real c) = true /\
  within (sin (argument c) * modulus c) (imaginary c) = true /\
  (0 <=? modulus c) = true /\
  (within (modulus c) 0 = true -> argument c = 0).

(** An instance whose rectangular fields are computed from its polar
    fields, as [createPolar] does. *)
Definition builtFromPolar (c : ComplexNumber) : Prop :=
  real c = cos (argument c) * modulus c /\
  imaginary c = sin (argument c) * modulus c /\
  (within (modulus c) 0 = true -> argument c = 0).

(** An instance whose polar fields are computed from its rectangular
    fields, as [createRectangular] does. *)
Definition builtFromRectangular (c : ComplexNumber) : Prop :=
  modulus c = PrimFloat.sqrt (pow (real c) 2 + pow (imaginary c) 2) /\
  argument c = storedArgument (real c) (imaginary c).

End Class.

(** ** The class over either reading of the numeric check

    The specification words the numeric check of [@ceilingcat/assertions]
    in two ways: as "type-validation only", which is the reading of module
    [Assertions] that the class above runs on, and as the rejection of
    every numeric input that "is not a finite real number" (sections 4.1
    and 7).  The functions of this module are the same source functions
    with the reading as a parameter; under [TypeValidation] they are the
    functions above (lemma [Checked_TypeValidation]). *)

Module Checked.

Inductive Reading : Type :=
| TypeValidation
| FiniteValidation.

(** Modelled from the spec: the numbers that pass the numeric check,
    every number under "type-validation only", and the finite ones under
    "a numeric input is not a finite real number". *)
Definition passes (rd : Reading) (x : float) : bool :=
  match rd with
  | TypeValidation => true
  | FiniteValidation => Number.isFinite x
  end.

(** Modelled from the spec: a value that does not pass the numeric check
    is an [InvalidArgument]. *)
Definition isNumber (rd : Reading) (value : JsValue) : result float :=
  match value with
  | JsNumber x => if passes rd x then Ok x else Throw InvalidArgument
  | _ => Throw InvalidArgument
  end.

(** Modelled from the spec: "validates modulus >= 0"; a negative modulus
    is a [RangeViolation]. *)
Definition isNonNegativeNumber (rd : Reading) (value : JsValue) : result float :=
  x <- isNumber rd value ;;
  if 0 <=? x then Ok x else Throw RangeViolation.

(** Modelled from the spec: "degree must be a positive integer". *)
Definition isPositiveNumber (rd : Reading) (value : JsValue) : result float :=
  x <- isNumber rd value ;;
  if 0 <? x then Ok x else Throw InvalidArgument.

(** Modelled from the spec: "whole-number check, fails with
    InvalidArgument otherwise". *)
Definition isIntegerNumber (rd : Reading) (value : JsValue) : result float :=
  x <- isNumber rd value ;;
  if Number.isInteger x then Ok x else Throw InvalidArgument.

(** A value that is a finite number. *)
Definition finiteNumber (value : JsValue) : bool :=
  match value with
  | JsNumber x => Number.isFinite x
  | _ => false
  end.

Definition withinTolerance (rd : Reading) (a b : JsValue) : result bool :=
  a <- isNumber rd a ;;
  b <- isNumber rd b ;;
  Ok (within a b).

Definition new_ComplexNumber (rd : Reading) (real imaginary modulus argument : JsValue)
  : result ComplexNumber :=
  re <- isNumber rd real ;;
  im <- isNumber rd imaginary ;;
  m <- isNonNegativeNumber rd modulus ;;
  a <- isNumber rd argument ;;
  Ok {| real := re; imaginary := im; modulus := m; argument := a |}.

Section Host.

Context {M : HostMath}.

Variable rd : Reading.

Definition principalArgument (real imaginary : JsValue) : result float :=
  re <- isNumber rd real ;;
  im <- isNumber rd imaginary ;;
  Ok (atan2 im re).

Definition modulusSquared (real imaginary : JsValue) : result float :=
  re <- isNumber rd real ;;
  im <- isNumber rd imaginary ;;
  Ok (pow re 2 + pow im 2).

Definition argumentOf (real imaginary : JsValue) : result float :=
  re <- isNumber rd real ;;
  im <- isNumber rd imaginary ;;
  zr <- withinTolerance rd re 0 ;;
  zi <- (if zr then withinTolerance rd im 0 else Ok false) ;;
  if zr && zi then Ok 0
  else
    p <- principalArgument re im ;;
    Ok (if p <? 0 then p + TWO_PI else p).

Definition rectangularToPolar (real imaginary : JsValue) : result (float * float) :=
  re <- isNumber rd real ;;
  im <- isNumber rd imaginary ;;
  m2 <- modulusSquared re im ;;
  a <- argumentOf re im ;;
  Ok (PrimFloat.sqrt m2, a).

Definition polarToRectangular (modulus argument : JsValue) : result (float * float) :=
  m <- isNonNegativeNumber rd modulus ;;
  a <- isNumber rd argument ;;
  Ok (cos a * m, sin a * m).

Definition createRectangular (real imaginary : JsValue) : result ComplexNumber :=
  re <- isNumber rd real ;;
  im <- isNumber rd imaginary ;;
  p <- rectangularToPolar re im ;;
  new_ComplexNumber rd re im (fst p) (snd p).

Definition createPolar (modulus argument : JsValue) : result ComplexNumber :=
  m <- isNonNegativeNumber rd modulus ;;
  a <- isNumber rd argument ;;
  z <- withinTolerance rd m 0 ;;
  let a :=
    if z then 0
    else
      let a := a %% TWO_PI in
      if a <? 0 then a + TWO_PI else a in
  r <- polarToRectangular m a ;;
  new_ComplexNumber rd (fst r) (snd r) m a.

Definition equals (this : ComplexNumber) (that : JsValue) : result bool :=
  that <- withAssertedComplexNumber that ;;
  r <- withinTolerance rd (real this) (re that) ;;
  if r then withinTolerance rd (imaginary this) (im that) else Ok false.

Definition add (this : ComplexNumber) (addend : JsValue) : result ComplexNumber :=
  addend <- withAssertedComplexNumber addend ;;
  createRectangular (re addend + re this) (im addend + im this).

Definition negate (this : ComplexNumber) : result ComplexNumber :=
  z <- equals this (JsComplexNumber ZERO) ;;
  if z then Ok ZERO
  else createRectangular (- re this) (- im this).

Definition withAssertedNotZero (complexNumber : JsValue) : result ComplexNumber :=
  c <- withAssertedComplexNumber complexNumber ;;
  z <- equals c (JsComplexNumber ZERO) ;;
  Assertions.withGuard DivisionByZero (negb z) ;;;
  Ok c.

Definition divide (this : ComplexNumber) (denominator : JsValue)
  : result ComplexNumber :=
  denominator <- withAssertedNotZero denominator ;;
  createPolar (modulus this / mod_ denominator) (argument this - arg denominator).

Definition multiply (this : ComplexNumber) (factor : JsValue) : result ComplexNumber :=
  factor <- withAssertedComplexNumber factor ;;
  createPolar (modulus this * mod_ factor) (argument this + arg factor).

Definition root (this : ComplexNumber) (degree : JsValue) : result ComplexNumber :=
  isPositiveNumber rd degree ;;;
  degree <- isIntegerNumber rd degree ;;
  let modulus := pow (modulus this) (1 / degree) in
  let principalArgument := get_principalArgument this / degree in
  createPolar modulus principalArgument.

Definition inverse (this : ComplexNumber) : result ComplexNumber :=
  divide EAST (JsComplexNumber this).

(** The numbers that [createPolar(m, a)] hands to the numeric check pass
    it: its two arguments, the reduced argument, and the rectangular
    parts. *)
Definition polarStorable (m a : float) : bool :=
  passes rd m && passes rd a && passes rd (reducedArgument m a)
  && passes rd (cos (reducedArgument m a) * m)
  && passes rd (sin (reducedArgument m a) * m).

(** The polar fields that [createRectangular(r, i)] hands to the
    constructor pass the numeric check. *)
Definition storable (r i : float) : bool :=
  passes rd (PrimFloat.sqrt (pow r 2 + pow i 2)) && passes rd (storedArgument r i).

End Host.

End Checked.

(** ** A reference host

    A small software implementation of the [Math] functions (argument
    reduction and Taylor sums in binary64 arithmetic).  It provides an
    instance of [HostMath], so that the class can be run on concrete
    inputs. *)

Module ReferenceMath.

(** [acc + sum of the next terms]; [term] is multiplied at each step by
    [- x2 / ((k + 1) * (k + 2))]. *)
Fixpoint alternating (fuel : nat) (x2 term k acc : float) : float :=
  match fuel with
  | O => acc
  | S fuel =>
      let term := - term * x2 / ((k + 1) * (k + 2)) in
      alternating fuel x2 term (k + 2) (acc + term)
  end.

(** Reduction of an angle to [-PI, PI]. *)
Definition reduce (x : float) : float :=
  let r := x %% TWO_PI in
  if PI <? r then r - TWO_PI
  else if r <? - PI then r + TWO_PI
  else r.

Definition cos (x : float) : float :=
  if PrimFloat.is_zero x then 1
  else let r := reduce x in alternating 30 (r * r) 1 0 1.

Definition sin (x : float) : float :=
  if PrimFloat.is_zero x then x
  else let r := reduce x in alternating 30 (r * r) r 1 r.

(** [t - t^3/3 + t^5/5 - ...] *)
Fixpoint odd_powers (fuel : nat) (sign t2 p k acc : float) : float :=
  match fuel with
  | O => acc
  | S fuel =>
      let p := sign * p * t2 in
      odd_powers fuel sign t2 p (k + 2) (acc + p / (k + 2))
  end.

Definition half_angle (t : float) : float := t / (1 + PrimFloat.sqrt (1 + t * t)).

Definition atan_small (t : float) : float :=
  let u := half_angle (half_angle (half_angle t)) in
  8 * odd_powers 20 (-1) (u * u) u 1 u.

Definition atan (t : float) : float :=
  if 1 <? t then PI / 2 - atan_small (1 / t)
  else if t <? -1 then - (PI / 2) - atan_small (1 / t)
  else atan_small t.

(** The case list of ECMA-262 for [Math.atan2 (y, x)]; the first case,
    [y] is [+0] and [x > +0], is taken out of its place in the list. *)
Definition atan2 (y x : float) : float :=
  let negative (v : float) := PrimFloat.get_sign v in
  if Leibniz.eqb y 0 && (0 <? x) then 0
  else if PrimFloat.is_nan y || PrimFloat.is_nan x then nan
  else if PrimFloat.is_infinity y then
    (if negative y then -1 else 1)
    * (if PrimFloat.is_infinity x
       then (if negative x then 3 * PI / 4 else PI / 4)
       else PI / 2)
  else if PrimFloat.is_zero y then
    if negative x then (if negative y then - PI else PI) else y
  else if PrimFloat.is_infinity x then
    if negative x then (if negative y then - PI else PI)
    else (if negative y then -0 else 0)
  else if PrimFloat.is_zero x then
    if negative y then - (PI / 2) else PI / 2
  else if negative x then
    (if negative y then atan (y / x) - PI else atan (y / x) + PI)
  else atan (y / x).

Definition LN2 : float := 0x1.62e42fefa39efp-1.

Definition of_Z (z : Z) : float :=
  match z with
  | Z0 => 0
  | Zpos _ => PrimFloat.of_uint63 (Uint63.of_Z z)
  | Zneg p => - PrimFloat.of_uint63 (Uint63.of_Z (Zpos p))
  end.

Definition log (x : float) : float :=
  if PrimFloat.is_nan x || (x <? 0) then nan
  else if PrimFloat.is_zero x then neg_infinity
  else if PrimFloat.is_infinity x then infinity
  else
    let (m, e) := Z.frexp x in
    let u := (m - 1) / (m + 1) in
    of_Z e * LN2 + 2 * odd_powers 40 1 (u * u) u 1 u.

Fixpoint exp_sum (fuel : nat) (x term k acc : float) : float :=
  match fuel with
  | O => acc
  | S fuel =>
      let term := term * x / (k + 1) in
      exp_sum fuel x term (k + 1) (acc + term)
  end.

(** The integer part of a finite number. *)
Definition to_Z (x : float) : Z :=
  match Prim2SF x with
  | S754_finite s m e =>
      let v :=
        match e with
        | Zneg p => Z.div (Zpos m) (Z.pow 2 (Zpos p))
        | _ => Z.mul (Zpos m) (Z.pow 2 e)
        end in
      if s then Z.opp v else v
  | _ => Z0
  end.

(** [x = k * LN2 + r], [exp x = 2^k * exp r]. *)
Definition exp (x : float) : float :=
  if PrimFloat.is_nan x then nan
  else if x <? -746 then 0
  else if 710 <? x then infinity
  else
    let k := to_Z (x / LN2 + (if x <? 0 then -0.5 else 0.5)) in
    let r := x - of_Z k * LN2 in
    Z.ldexp (exp_sum 25 r 1 0 1) k.

Definition pow (x y : float) : float :=
  if PrimFloat.is_nan y then nan
  else if PrimFloat.is_zero y then 1
  else if PrimFloat.eqb y 2 then x * x
  else if PrimFloat.eqb y 1 then x
  else if PrimFloat.is_nan x then nan
  else if PrimFloat.is_zero x then (if 0 <? y then 0 else infinity)
  else if x <? 0 then
    (if Number.isInteger y
     then (if Number.isInteger (y / 2) then 1 else -1) * exp (y * log (- x))
     else nan)
  else exp (y * log x).

End ReferenceMath.

#[export] Instance reference_math : HostMath.
Proof.
  refine {| cos := ReferenceMath.cos; sin := ReferenceMath.sin;
            atan2 := ReferenceMath.atan2; pow := ReferenceMath.pow;
            log := ReferenceMath.log |}.
  - intros x H. unfold ReferenceMath.cos. rewrite H. reflexivity.
  - intros x H. unfold ReferenceMath.sin. rewrite H. reflexivity.
  - intros x H. unfold ReferenceMath.atan2. rewrite H. reflexivity.
  - intros x. reflexivity.
Defined.

(** ** Facts of binary64 arithmetic

    Derived from the specification of the primitive operations
    ([FloatAxioms]) by unfolding the reference semantics [SpecFloat]. *)

Module IEEE.

Local Open Scope Z_scope.

Lemma iter_pos_nat {A : Type} (f : A -> A) (n : positive) (x : A) :
  iter_pos f n x = Nat.iter (Pos.to_nat n) f x.
Proof.
  revert x. induction n as [n IH|n IH|]; intros x; cbn [iter_pos].
  - rewrite !IH. rewrite Pos2Nat.inj_xI.
    replace (S (2 * Pos.to_nat n))%nat
      with (Pos.to_nat n + (Pos.to_nat n + 1))%nat by lia.
    rewrite !Nat.iter_add. reflexivity.
  - rewrite !IH. rewrite Pos2Nat.inj_xO.
    replace (2 * Pos.to_nat n)%nat with (Pos.to_nat n + Pos.to_nat n)%nat by lia.
    rewrite Nat.iter_add. reflexivity.
  - reflexivity.
Qed.

Lemma Pos_iter_nat {A : Type} (f : A -> A) (n : positive) (x : A) :
  Pos.iter f x n = Nat.iter (Pos.to_nat n) f x.
Proof. apply Pos2Nat.inj_iter. Qed.

Lemma digits2_iter_xO (n : nat) (m : positive) :
  Zpos (digits2_pos (Nat.iter n xO m)) = Zpos (digits2_pos m) + Z.of_nat n.
Proof.
  induction n as [|n IH]; [cbn; lia|].
  rewrite Nat.iter_succ. cbn [digits2_pos].
  rewrite Pos2Z.inj_succ, IH. lia.
Qed.

Lemma value_iter_xO (n : nat) (m : positive) :
  Zpos (Nat.iter n xO m) = Zpos m * 2 ^ Z.of_nat n.
Proof.
  induction n as [|n IH]; [cbn; lia|].
  rewrite Nat.iter_succ, Pos2Z.inj_xO, IH, Nat2Z.inj_succ, Z.pow_succ_r by lia.
  lia.
Qed.

Lemma shr_iter_xO (n : nat) (m : positive) :
  Nat.iter n shr_1
    {| shr_m := Zpos (Nat.iter n xO m); shr_r := false; shr_s := false |}
  = {| shr_m := Zpos m; shr_r := false; shr_s := false |}.
Proof.
  induction n as [|n IH]; [reflexivity|].
  rewrite Nat.iter_succ_r, Nat.iter_succ. cbn [shr_1 orb]. exact IH.
Qed.

Lemma bounded_fexp (m : positive) (e : Z) :
  bounded prec emax m e = true ->
  fexp prec emax (Zpos (digits2_pos m) + e) = e /\ e <= emax - prec.
Proof.
  unfold bounded, canonical_mantissa. intros H.
  apply andb_true_iff in H. destruct H as [H1 H2].
  apply Z.eqb_eq in H1. apply Z.leb_le in H2. split; assumption.
Qed.

(** Rounding a mantissa that only carries extra low zero bits gives back
    the canonical representation. *)
Lemma round_aux_shifted (s : bool) (m : positive) (e : Z) (n : nat) :
  bounded prec emax m e = true ->
  binary_round_aux prec emax s (Zpos (Nat.iter n xO m)) (e - Z.of_nat n) loc_Exact
  = S754_finite s m e.
Proof.
  intros Hb. destruct (bounded_fexp m e Hb) as [Hf He].
  unfold binary_round_aux.
  assert (H1 : shr_fexp prec emax (Zpos (Nat.iter n xO m)) (e - Z.of_nat n) loc_Exact
               = ({| shr_m := Zpos m; shr_r := false; shr_s := false |}, e)).
  { unfold shr_fexp. cbn [Zdigits2 shr_record_of_loc].
    rewrite digits2_iter_xO.
    replace (Zpos (digits2_pos m) + Z.of_nat n + (e - Z.of_nat n))
      with (Zpos (digits2_pos m) + e) by lia.
    rewrite Hf.
    replace (e - (e - Z.of_nat n)) with (Z.of_nat n) by lia.
    destruct n as [|n].
    - cbn [Z.of_nat shr Nat.iter]. f_equal. lia.
    - unfold shr. cbn [Z.of_nat]. rewrite iter_pos_nat, SuccNat2Pos.id_succ.
      rewrite shr_iter_xO. f_equal. lia. }
  rewrite H1. cbn [shr_m loc_of_shr_record round_nearest_even].
  assert (H2 : shr_fexp prec emax (Zpos m) e loc_Exact
               = ({| shr_m := Zpos m; shr_r := false; shr_s := false |}, e)).
  { unfold shr_fexp. cbn [Zdigits2 shr_record_of_loc]. rewrite Hf, Z.sub_diag.
    reflexivity. }
  rewrite H2. cbn [shr_m].
  apply Z.leb_le in He. rewrite He. reflexivity.
Qed.

Local Open Scope float_scope.

Lemma SF_zero : Prim2SF 0 = S754_zero false.
Proof. reflexivity. Qed.

Lemma SF_one : Prim2SF 1 = S754_finite false 4503599627370496 (-52).
Proof. reflexivity. Qed.

Lemma SF_TOLERANCE : Prim2SF TOLERANCE = S754_finite false 4951760157141521 (-92).
Proof. reflexivity. Qed.

Lemma valid_finite (x : float) (s : bool) (m : positive) (e : Z) :
  Prim2SF x = S754_finite s m e -> bounded prec emax m e = true.
Proof. intros E. pose proof (Prim2SF_valid x) as H. rewrite E in H. exact H. Qed.

(** [1 * x] and [x * 1] are [x], for every [x]. *)
Lemma mul_1_l (x : float) : 1 * x = x.
Proof.
  apply Prim2SF_inj. rewrite mul_spec, SF_one.
  destruct (Prim2SF x) as [s|s| |s m e] eqn:E; try reflexivity.
  unfold SF64mul, SFmul. cbn [xorb].
  change (4503599627370496 * m)%positive with (Nat.iter 52 xO m).
  replace (-52 + e)%Z with (e - Z.of_nat 52)%Z by lia.
  apply round_aux_shifted. eapply valid_finite, E.
Qed.

Lemma mul_1_r (x : float) : x * 1 = x.
Proof.
  apply Prim2SF_inj. rewrite mul_spec, SF_one.
  destruct (Prim2SF x) as [s|s| |s m e] eqn:E; try (destruct s; reflexivity).
  - reflexivity.
  - unfold SF64mul, SFmul. rewrite xorb_false_r, Pos.mul_comm.
    change (4503599627370496 * m)%positive with (Nat.iter 52 xO m).
    replace (e + -52)%Z with (e - Z.of_nat 52)%Z by lia.
    apply round_aux_shifted. eapply valid_finite, E.
Qed.

(** [x - 0] is [x], for every [x]. *)
Lemma sub_0_r (x : float) : x - 0 = x.
Proof.
  apply Prim2SF_inj. rewrite sub_spec, SF_zero.
  destruct (Prim2SF x) as [[|]|[|]| |s m e]; reflexivity.
Qed.

(** [x + 0] is [x], except that [-0 + 0] is [+0]. *)
Lemma add_0_r (x : float) : Prim2SF x <> S754_zero true -> x + 0 = x.
Proof.
  intros H. apply Prim2SF_inj. rewrite add_spec, SF_zero.
  destruct (Prim2SF x) as [[|]|[|]| |s m e]; try reflexivity. now destruct H.
Qed.

Lemma add_0_l (x : float) : Prim2SF x <> S754_zero true -> 0 + x = x.
Proof.
  intros H. apply Prim2SF_inj. rewrite add_spec, SF_zero.
  destruct (Prim2SF x) as [[|]|[|]| |s m e]; try reflexivity. now destruct H.
Qed.

Lemma SF_neg_zero (x : float) : Prim2SF x = S754_zero true -> x = -0.
Proof. intros H. apply Prim2SF_inj. rewrite H. reflexivity. Qed.

Lemma SF_pos_zero (x : float) : Prim2SF x = S754_zero false -> x = 0.
Proof. intros H. apply Prim2SF_inj. rewrite H. reflexivity. Qed.

(** [x - x] is [+0] for a finite [x]. *)
Lemma sub_diag (x : float) : Number.isFinite x = true -> x - x = 0.
Proof.
  unfold Number.isFinite. intros H.
  apply Prim2SF_inj. rewrite sub_spec, SF_zero.
  destruct (Prim2SF x) as [[|]|[|]| |s m e]; try discriminate; try reflexivity.
  unfold SF64sub, SFsub. rewrite Z.sub_diag. reflexivity.
Qed.

(** [-x + x] is [+0] for a finite [x]. *)
Lemma add_opp_diag_l (x : float) : Number.isFinite x = true -> - x + x = 0.
Proof.
  unfold Number.isFinite. intros H.
  apply Prim2SF_inj. rewrite add_spec, opp_spec, SF_zero.
  destruct (Prim2SF x) as [[|]|[|]| |s m e]; try discriminate; try reflexivity.
  unfold SF64add, SFadd, SFopp.
  replace (cond_Zopp (negb s) _ + cond_Zopp s _)%Z with 0%Z; [reflexivity|].
  destruct s; cbn [negb cond_Zopp]; lia.
Qed.

(** *** Signs and comparisons with zero *)

Lemma leb_0_l (x : float) : (0 <=? x) = Number.SFnonneg (Prim2SF x).
Proof.
  rewrite FloatAxioms.leb_spec, SF_zero.
  destruct (Prim2SF x) as [[|]|[|]| |[|] m e]; reflexivity.
Qed.

Lemma ltb_0_l (x : float) :
  (0 <? x) = match Prim2SF x with
             | S754_infinity false | S754_finite false _ _ => true
             | _ => false
             end.
Proof.
  rewrite FloatAxioms.ltb_spec, SF_zero.
  destruct (Prim2SF x) as [[|]|[|]| |[|] m e]; reflexivity.
Qed.

Lemma ltb_0_r (x : float) :
  (x <? 0) = match Prim2SF x with
             | S754_infinity true | S754_finite true _ _ => true
             | _ => false
             end.
Proof.
  rewrite FloatAxioms.ltb_spec, SF_zero.
  destruct (Prim2SF x) as [[|]|[|]| |[|] m e]; reflexivity.
Qed.

Lemma abs_of_pos (x : float) : (0 <? x) = true -> abs x = x.
Proof.
  rewrite ltb_0_l. intros H. apply Prim2SF_inj. rewrite abs_spec.
  destruct (Prim2SF x) as [[|]|[|]| |[|] m e]; try discriminate; reflexivity.
Qed.

Lemma pos_leb_TOLERANCE (x : float) :
  (0 <? x) = true -> (x <=? TOLERANCE) = true ->
  exists m e, Prim2SF x = S754_finite false m e.
Proof.
  rewrite ltb_0_l, FloatAxioms.leb_spec, SF_TOLERANCE.
  destruct (Prim2SF x) as [[|]|[|]| |[|] m e]; intros; try discriminate.
  exists m, e. reflexivity.
Qed.

(** *** Rounding keeps the sign *)

Local Open Scope Z_scope.

Lemma shr_1_nonneg (mrs : shr_record) : 0 <= shr_m mrs -> 0 <= shr_m (shr_1 mrs).
Proof. destruct mrs as [[|[p|p|]|p] r s]; cbn; lia. Qed.

Lemma iter_shr_1_nonneg (n : nat) (mrs : shr_record) :
  0 <= shr_m mrs -> 0 <= shr_m (Nat.iter n shr_1 mrs).
Proof.
  intros H. induction n as [|n IH]; [exact H|].
  rewrite Nat.iter_succ. now apply shr_1_nonneg.
Qed.

Lemma shr_fexp_nonneg (m e : Z) (l : location) :
  0 <= m -> 0 <= shr_m (fst (shr_fexp prec emax m e l)).
Proof.
  intros H. unfold shr_fexp, shr.
  assert (H0 : 0 <= shr_m (shr_record_of_loc m l)) by (destruct l as [|[| |]]; exact H).
  destruct (fexp prec emax (Zdigits2 m + e) - e) as [|p|p]; cbn [fst]; try exact H0.
  rewrite iter_pos_nat. now apply iter_shr_1_nonneg.
Qed.

Lemma round_nearest_even_nonneg (m : Z) (l : location) :
  0 <= m -> 0 <= round_nearest_even m l.
Proof.
  intros H. destruct l as [|[| |]]; cbn; try destruct (Z.even m); lia.
Qed.

Lemma round_aux_nonneg (m e : Z) (l : location) :
  0 <= m -> Number.SFnonneg (binary_round_aux prec emax false m e l) = true.
Proof.
  intros H. unfold binary_round_aux.
  pose proof (shr_fexp_nonneg m e l H) as H1.
  destruct (shr_fexp prec emax m e l) as [mrs1 e1]. cbn [fst] in H1.
  pose proof (shr_fexp_nonneg _ e1 loc_Exact
                (round_nearest_even_nonneg _ (loc_of_shr_record mrs1) H1)) as H2.
  destruct (shr_fexp prec emax _ e1 loc_Exact) as [mrs2 e2]. cbn [fst] in H2.
  destruct (shr_m mrs2) as [|p|p]; [reflexivity| |lia].
  destruct (e2 <=? emax - prec); reflexivity.
Qed.

Lemma SFmul_self_nonneg (x : spec_float) :
  x <> S754_nan -> Number.SFnonneg (SF64mul x x) = true.
Proof.
  intros H. destruct x as [s|s| |s m e]; cbn [SF64mul SFmul].
  - reflexivity.
  - rewrite xorb_nilpotent. reflexivity.
  - now destruct H.
  - rewrite xorb_nilpotent. apply round_aux_nonneg. lia.
Qed.

Lemma SFadd_nonneg (x y : spec_float) :
  Number.SFnonneg x = true -> Number.SFnonneg y = true -> Number.SFnonneg (SF64add x y) = true.
Proof.
  destruct x as [sx|[|]| |[|] mx ex]; try discriminate;
    destruct y as [sy|[|]| |[|] my ey]; try discriminate; intros _ _;
    try reflexivity.
  - destruct sx, sy; reflexivity.
  - unfold SF64add, SFadd, binary_normalize. cbn [cond_Zopp Z.add].
    unfold binary_round.
    destruct (shl_align _ _ _) as [mz ez]. apply round_aux_nonneg. lia.
Qed.

Lemma SFsqrt_nonneg (x : spec_float) :
  Number.SFnonneg x = true -> Number.SFnonneg (SF64sqrt x) = true.
Proof.
  destruct x as [s|[|]| |[|] m e]; try discriminate; intros _; try reflexivity.
  unfold SF64sqrt, SFsqrt, SFsqrt_core_binary.
  set (m' := match _ - _ with Z0 => Zpos m | Zpos _ => Z.shiftl (Zpos m) _ | Zneg _ => 0 end).
  assert (Hm : 0 <= m').
  { subst m'. destruct (_ - _); [lia| |lia]. apply Z.shiftl_nonneg. lia. }
  pose proof (Z.sqrtrem_spec m' Hm) as Hs.
  destruct (Z.sqrtrem m') as [q r]. apply round_aux_nonneg. lia.
Qed.

Local Open Scope float_scope.

Lemma finite_not_nan (x : float) : Number.isFinite x = true -> Prim2SF x <> S754_nan.
Proof. unfold Number.isFinite. intros H E. rewrite E in H. discriminate. Qed.

(** The modulus that [createRectangular] computes passes the
    constructor's check. *)
Lemma sqrt_sum_squares_nonneg (r i : float) :
  Prim2SF r <> S754_nan -> Prim2SF i <> S754_nan ->
  (0 <=? sqrt (r * r + i * i)) = true.
Proof.
  intros Hr Hi. rewrite leb_0_l, sqrt_spec, add_spec, !mul_spec.
  apply SFsqrt_nonneg, SFadd_nonneg; now apply SFmul_self_nonneg.
Qed.

End IEEE.

(** ** The remainder of a small dividend *)

Module Remainder.

Local Open Scope Z_scope.

Lemma digits2_bounds (m : positive) :
  2 ^ (Zpos (digits2_pos m) - 1) <= Zpos m < 2 ^ Zpos (digits2_pos m).
Proof.
  induction m as [m IH|m IH|]; cbn [digits2_pos]; [| |cbn; lia].
  - rewrite Pos2Z.inj_succ.
    replace (Z.succ (Zpos (digits2_pos m)) - 1)
      with (Z.succ (Zpos (digits2_pos m) - 1)) by lia.
    rewrite !Z.pow_succ_r by lia. lia.
  - rewrite Pos2Z.inj_succ.
    replace (Z.succ (Zpos (digits2_pos m)) - 1)
      with (Z.succ (Zpos (digits2_pos m) - 1)) by lia.
    rewrite !Z.pow_succ_r by lia. lia.
Qed.

(** Of two canonical mantissas, the one with the smaller exponent is
    smaller than the other one aligned to that exponent. *)
Lemma aligned_lt (ma md : positive) (ea ed : Z) :
  bounded prec emax ma ea = true -> bounded prec emax md ed = true ->
  ea < ed ->
  Zpos ma < Zpos (fst (shl_align md ed ea)).
Proof.
  intros Ha Hd Hlt.
  destruct (IEEE.bounded_fexp ma ea Ha) as [Fa _].
  destruct (IEEE.bounded_fexp md ed Hd) as [Fd _].
  unfold fexp, SpecFloat.emin in Fa, Fd.
  change prec with 53 in *. change emax with 1024 in *.
  pose proof (digits2_bounds ma) as Ba. pose proof (digits2_bounds md) as Bd.
  assert (Da : Zpos (digits2_pos ma) <= 53) by lia.
  assert (Dd : Zpos (digits2_pos md) = 53) by lia.
  rewrite Dd in Bd.
  assert (Pa : 2 ^ Zpos (digits2_pos ma) <= 2 ^ 53) by (apply Z.pow_le_mono_r; lia).
  unfold shl_align. destruct (ea - ed) as [|k|k] eqn:Ek; try lia.
  cbn [fst]. rewrite IEEE.Pos_iter_nat, IEEE.value_iter_xO, positive_nat_Z.
  assert (Pk : 2 ^ 1 <= 2 ^ Zpos k) by (apply Z.pow_le_mono_r; lia).
  change (2 ^ 53) with (2 * 2 ^ (53 - 1)) in Pa. change (2 ^ 1) with 2 in Pk.
  nia.
Qed.

Lemma shl_align_same (m : positive) (e : Z) : shl_align m e e = (m, e).
Proof. unfold shl_align. rewrite Z.sub_diag. reflexivity. Qed.

(** Normalizing a canonical mantissa changes nothing. *)
Lemma normalize_canonical (m : positive) (e : Z) :
  bounded prec emax m e = true ->
  binary_normalize prec emax (Zpos m) e false = S754_finite false m e.
Proof.
  intros Hb. destruct (IEEE.bounded_fexp m e Hb) as [Hf _].
  unfold binary_normalize, binary_round. rewrite Hf, shl_align_same.
  replace e with (e - Z.of_nat 0) at 1 by (cbn; lia).
  now apply (IEEE.round_aux_shifted false m e 0).
Qed.

Lemma SFrem_small (a d : spec_float) :
  valid_binary a = true -> valid_binary d = true ->
  Number.SFnonneg a = true -> SFltb a d = true ->
  Number.SFrem a d = a.
Proof.
  intros Va Vd Hn Hlt.
  destruct a as [sa|[|]| |[|] ma ea]; try discriminate;
    destruct d as [sd|[|]| |[|] md ed]; try discriminate; try reflexivity.
  cbn [valid_binary] in Va, Vd.
  unfold SFltb, SFcompare in Hlt.
  unfold Number.SFrem.
  assert (Hr : Z.rem (Zpos (fst (shl_align ma ea (Z.min ea ed))))
                     (Zpos (fst (shl_align md ed (Z.min ea ed)))) = Zpos ma
               /\ Z.min ea ed = ea).
  { destruct (Z.compare_spec ea ed) as [E|L|G]; try discriminate.
    - subst ed. rewrite Z.min_id, !shl_align_same. cbn [fst]. split; [|reflexivity].
      apply Z.rem_small.
      rewrite Pos.compare_cont_spec in Hlt. unfold Pos.switch_Eq in Hlt.
      destruct (ma ?= md)%positive eqn:C; try discriminate.
      change (ma < md)%positive in C. lia.
    - rewrite Z.min_l by lia. rewrite shl_align_same. cbn [fst]. split; [|reflexivity].
      apply Z.rem_small. split; [lia|]. now apply aligned_lt. }
  destruct Hr as [Hr Hm]. rewrite Hr, Hm. cbn [cond_Zopp].
  now apply normalize_canonical.
Qed.

Local Open Scope float_scope.

(** [a % d] is [a] when [0 <= a < d]. *)
Lemma rem_small (a d : float) :
  (0 <=? a) = true -> (a <? d) = true -> a %% d = a.
Proof.
  intros Ha Hlt. unfold Number.rem.
  rewrite IEEE.leb_0_l in Ha. rewrite FloatAxioms.ltb_spec in Hlt.
  rewrite SFrem_small; auto using Prim2SF_valid.
  apply SF2Prim_Prim2SF.
Qed.

End Remainder.

(** ** The sign of a quotient and the remainder of a negative dividend *)

Module Sign.

Local Open Scope Z_scope.

Lemma SFdiv_nonneg (mx my : positive) (ex ey : Z) :
  Number.SFnonneg (SF64div (S754_finite false mx ex) (S754_finite false my ey)) = true.
Proof.
  unfold SF64div, SFdiv, SFdiv_core_binary. cbn [xorb].
  set (e' := Z.min _ _).
  set (m' := match ex - ey - e' with
             | Z0 => Zpos mx
             | Zpos _ => Z.shiftl (Zpos mx) (ex - ey - e')
             | Zneg _ => 0
             end).
  assert (Hm : 0 <= m').
  { subst m'. destruct (ex - ey - e'); [lia| |lia]. apply Z.shiftl_nonneg. lia. }
  pose proof (Z.div_pos m' (Zpos my) Hm ltac:(lia)) as Hq.
  unfold Z.div in Hq.
  destruct (Z.div_eucl m' (Zpos my)) as [q r].
  apply IEEE.round_aux_nonneg. exact Hq.
Qed.

(** Normalizing a canonical mantissa with a sign changes nothing. *)
Lemma normalize_canonical_neg (m : positive) (e : Z) :
  bounded prec emax m e = true ->
  binary_normalize prec emax (Zneg m) e false = S754_finite true m e.
Proof.
  intros Hb. destruct (IEEE.bounded_fexp m e Hb) as [Hf _].
  unfold binary_normalize, binary_round. rewrite Hf, Remainder.shl_align_same.
  replace e with (e - Z.of_nat 0) at 1 by (cbn; lia).
  now apply (IEEE.round_aux_shifted true m e 0).
Qed.

Lemma SFrem_small_neg (a d : spec_float) :
  valid_binary a = true -> valid_binary d = true ->
  SFltb a (S754_zero false) = true -> SFltb (SFopp d) a = true ->
  Number.SFrem a d = a.
Proof.
  intros Va Vd Hn Hlt.
  destruct a as [sa|[|]| |[|] ma ea]; try discriminate;
    destruct d as [sd|[|]| |[|] md ed]; try discriminate; try reflexivity.
  cbn [valid_binary] in Va, Vd.
  unfold SFltb, SFopp, SFcompare in Hlt. cbn [negb] in Hlt.
  unfold Number.SFrem.
  assert (Hr : Z.rem (Zpos (fst (shl_align ma ea (Z.min ea ed))))
                     (Zpos (fst (shl_align md ed (Z.min ea ed)))) = Zpos ma
               /\ Z.min ea ed = ea).
  { destruct (Z.compare_spec ed ea) as [E|L|G]; try discriminate.
    - subst ed. rewrite Z.min_id, !Remainder.shl_align_same. cbn [fst].
      split; [|reflexivity].
      apply Z.rem_small.
      rewrite Pos.compare_cont_spec in Hlt. unfold Pos.switch_Eq in Hlt.
      destruct (md ?= ma)%positive eqn:C; try discriminate.
      apply Pos.compare_gt_iff in C. lia.
    - rewrite Z.min_l by lia. rewrite Remainder.shl_align_same. cbn [fst].
      split; [|reflexivity].
      apply Z.rem_small. split; [lia|]. apply Remainder.aligned_lt; assumption || lia. }
  destruct Hr as [Hr Hm]. rewrite Hr, Hm. cbn [cond_Zopp].
  now apply normalize_canonical_neg.
Qed.

Local Open Scope float_scope.

(** A quotient of a finite number that is not negative by a finite
    positive number is not negative (and not [NaN]). *)
Lemma div_nonneg (x y : float) :
  Number.isFinite x = true -> (0 <=? x) = true ->
  Number.isFinite y = true -> (0 <? y) = true ->
  (0 <=? x / y) = true.
Proof.
  unfold Number.isFinite. rewrite !IEEE.leb_0_l, IEEE.ltb_0_l, div_spec.
  destruct (Prim2SF x) as [sx|[|]| |[|] mx ex]; try discriminate;
    destruct (Prim2SF y) as [sy|[|]| |[|] my ey]; try discriminate; intros _ _ _ _.
  - reflexivity.
  - apply SFdiv_nonneg.
Qed.

(** [a % d] is [a] when [-d < a < 0]. *)
Lemma rem_small_neg (a d : float) :
  (a <? 0) = true -> (- d <? a) = true -> a %% d = a.
Proof.
  intros Ha Hlt. unfold Number.rem.
  rewrite FloatAxioms.ltb_spec in Ha, Hlt. rewrite opp_spec in Hlt.
  rewrite IEEE.SF_zero in Ha.
  rewrite SFrem_small_neg; auto using Prim2SF_valid.
  apply SF2Prim_Prim2SF.
Qed.

End Sign.

(** ** Bounds that survive rounding *)

Module Magnitude.

Local Open Scope Z_scope.

Lemma shr_1_div2 (mrs : shr_record) :
  0 <= shr_m mrs -> shr_m (shr_1 mrs) = shr_m mrs / 2.
Proof.
  destruct mrs as [[|[p|p|]|p] r s]; cbn [shr_1 shr_m]; intros H; try lia.
  - reflexivity.
  - rewrite Pos2Z.inj_xI. apply Z.div_unique with (r := 1); lia.
  - rewrite Pos2Z.inj_xO. apply Z.div_unique with (r := 0); lia.
  - reflexivity.
Qed.

Lemma iter_shr_1_div (n : nat) (mrs : shr_record) :
  0 <= shr_m mrs ->
  shr_m (Nat.iter n shr_1 mrs) = shr_m mrs / 2 ^ Z.of_nat n.
Proof.
  intros H. induction n as [|n IH].
  - cbn. now rewrite Z.div_1_r.
  - rewrite Nat.iter_succ, shr_1_div2, IH by now apply IEEE.iter_shr_1_nonneg.
    rewrite Nat2Z.inj_succ, Z.pow_succ_r by lia.
    rewrite Z.div_div by lia. f_equal. lia.
Qed.

Lemma Zdigits2_le (m n : Z) : 0 <= m -> 0 <= n -> m < 2 ^ n -> Zdigits2 m <= n.
Proof.
  intros Hm Hn H. destruct m as [|p|p]; cbn [Zdigits2]; try lia.
  pose proof (Remainder.digits2_bounds p) as [B _].
  destruct (Z_le_gt_dec (Zpos (digits2_pos p)) n) as [L|G]; [exact L|].
  assert (2 ^ n <= 2 ^ (Zpos (digits2_pos p) - 1)) by (apply Z.pow_le_mono_r; lia).
  lia.
Qed.

(** What [shr_fexp] returns stays below a power of two that bounds its
    input. *)
Lemma shr_fexp_bound (m e K : Z) (l : location) :
  0 <= m -> e <= K -> SpecFloat.emin prec emax <= K -> m <= 2 ^ (K - e) ->
  0 <= shr_m (fst (shr_fexp prec emax m e l)) /\
  snd (shr_fexp prec emax m e l) <= K /\
  shr_m (fst (shr_fexp prec emax m e l)) <= 2 ^ (K - snd (shr_fexp prec emax m e l)) /\
  (m < 2 ^ (K - e) ->
   shr_m (fst (shr_fexp prec emax m e l)) < 2 ^ (K - snd (shr_fexp prec emax m e l))).
Proof.
  intros Hm He Hmin Hb.
  assert (H0 : shr_m (shr_record_of_loc m l) = m) by (destruct l as [|[| |]]; reflexivity).
  unfold shr_fexp, shr.
  destruct (fexp prec emax (Zdigits2 m + e) - e) as [|p|p] eqn:En; cbn [fst snd];
    rewrite ?H0.
  1, 3: split; [lia|split; [lia|split; [lia|intros; lia]]].
  rewrite IEEE.iter_pos_nat, iter_shr_1_div, H0, positive_nat_Z by (rewrite H0; exact Hm).
  assert (Hd : Zdigits2 m <= K - e + 1).
  { apply Zdigits2_le; try lia.
    assert (2 ^ (K - e) < 2 ^ (K - e + 1)) by (apply Z.pow_lt_mono_r; lia). lia. }
  assert (Hf : e + Zpos p <= K).
  { assert (E : e + Zpos p = fexp prec emax (Zdigits2 m + e)) by lia.
    rewrite E. unfold fexp, SpecFloat.emin in *.
    change prec with 53 in *. change emax with 1024 in *. lia. }
  assert (P1 : 0 < 2 ^ Zpos p) by (apply Z.pow_pos_nonneg; lia).
  assert (P2 : 2 ^ (K - e) = 2 ^ (K - (e + Zpos p)) * 2 ^ Zpos p).
  { rewrite <- Z.pow_add_r by lia. f_equal. lia. }
  assert (P3 : 0 < 2 ^ (K - (e + Zpos p))) by (apply Z.pow_pos_nonneg; lia).
  split; [apply Z.div_pos; lia|]. split; [exact Hf|]. split.
  - apply Z.div_le_upper_bound; [lia|]. rewrite P2 in Hb. lia.
  - intros Hs. apply Z.div_lt_upper_bound; [lia|]. rewrite P2 in Hs. lia.
Qed.

(** Rounding does not carry a value below [2 ^ K] beyond [2 ^ K]. *)
Lemma round_aux_bound (s : bool) (m e K : Z) (l : location) :
  0 <= m -> e <= K -> SpecFloat.emin prec emax <= K -> K <= emax - prec ->
  m < 2 ^ (K - e) ->
  match binary_round_aux prec emax s m e l with
  | S754_zero _ => True
  | S754_finite s' mr er => s' = s /\ er <= K /\ Zpos mr <= 2 ^ (K - er)
  | _ => False
  end.
Proof.
  intros Hm He Hmin Hmax Hb. unfold binary_round_aux.
  destruct (shr_fexp_bound m e K l Hm He Hmin ltac:(lia)) as (A1 & A2 & _ & A4).
  specialize (A4 Hb).
  destruct (shr_fexp prec emax m e l) as [mrs1 e1]. cbn [fst snd] in *.
  set (m2 := round_nearest_even (shr_m mrs1) (loc_of_shr_record mrs1)).
  assert (B1 : 0 <= m2) by now apply IEEE.round_nearest_even_nonneg.
  assert (B2 : m2 <= 2 ^ (K - e1)).
  { subst m2. destruct (loc_of_shr_record mrs1) as [|[| |]]; cbn [round_nearest_even];
      try destruct (Z.even _); lia. }
  destruct (shr_fexp_bound m2 e1 K loc_Exact B1 A2 Hmin B2) as (C1 & C2 & C3 & _).
  destruct (shr_fexp prec emax m2 e1 loc_Exact) as [mrs2 e2]. cbn [fst snd] in *.
  destruct (shr_m mrs2) as [|q|q]; [exact I| |lia].
  replace (e2 <=? emax - prec) with true by (symmetry; apply Z.leb_le; lia).
  repeat split; assumption.
Qed.

End Magnitude.

(** ** The range of a divided angle *)

Module Range.

Local Open Scope Z_scope.

Lemma digits_le_prec (m : positive) (e : Z) :
  bounded prec emax m e = true -> Zpos (digits2_pos m) <= 53.
Proof.
  intros H. destruct (IEEE.bounded_fexp m e H) as [Hf _].
  unfold fexp, SpecFloat.emin in Hf. change prec with 53 in Hf. lia.
Qed.

Lemma digits_normal (m : positive) (e : Z) :
  bounded prec emax m e = true -> -1074 < e -> Zpos (digits2_pos m) = 53.
Proof.
  intros H He. destruct (IEEE.bounded_fexp m e H) as [Hf _].
  unfold fexp, SpecFloat.emin in Hf.
  change prec with 53 in Hf. change emax with 1024 in Hf. lia.
Qed.

Lemma normal_mantissa (m : positive) (e : Z) :
  bounded prec emax m e = true -> -1074 < e -> 2 ^ 52 <= Zpos m.
Proof.
  intros H He. pose proof (Remainder.digits2_bounds m) as [B _].
  now rewrite (digits_normal m e H He) in B.
Qed.

(** The quotient of a number below [4] in magnitude by a number that is
    at least [1]. *)
Lemma SFdiv_bound (sa sd : bool) (ma md : positive) (ea ed : Z) :
  Zpos (digits2_pos ma) + ea <= 2 -> -52 <= ed -> 2 ^ 52 <= Zpos md ->
  match SF64div (S754_finite sa ma ea) (S754_finite sd md ed) with
  | S754_zero _ => True
  | S754_finite s mr er => s = xorb sa sd /\ er <= 2 /\ Zpos mr <= 2 ^ (2 - er)
  | _ => False
  end.
Proof.
  intros Ha Hd Hm. unfold SF64div, SFdiv, SFdiv_core_binary.
  cbn [Zdigits2].
  set (e' := Z.min _ _).
  assert (He' : e' <= 2 /\ e' <= ea - ed).
  { subst e'. split; [|apply Z.le_min_r].
    etransitivity; [apply Z.le_min_l|].
    pose proof (Remainder.digits2_bounds md) as [_ Bd].
    assert (Dd : 52 < Zpos (digits2_pos md)).
    { apply (Z.pow_lt_mono_r_iff 2); lia. }
    unfold fexp, SpecFloat.emin. change prec with 53. change emax with 1024. lia. }
  set (m' := match ea - ed - e' with
             | Z0 => Zpos ma
             | Zpos _ => Z.shiftl (Zpos ma) (ea - ed - e')
             | Zneg _ => 0
             end).
  pose proof (Remainder.digits2_bounds ma) as [_ Bm].
  assert (Hm' : 0 <= m' < 2 ^ (54 - e')).
  { subst m'. destruct (ea - ed - e') as [|p|p] eqn:Es; try lia.
    - split; [lia|]. eapply Z.lt_le_trans; [exact Bm|].
      apply Z.pow_le_mono_r; lia.
    - rewrite Z.shiftl_mul_pow2 by lia. split; [lia|].
      assert (P : 0 < 2 ^ Zpos p) by (apply Z.pow_pos_nonneg; lia).
      apply Z.lt_le_trans with (2 ^ Zpos (digits2_pos ma) * 2 ^ Zpos p); [nia|].
      rewrite <- Z.pow_add_r by lia. apply Z.pow_le_mono_r; lia. }
  pose proof (Z.div_eucl_eq m' (Zpos md) ltac:(lia)) as Hq.
  pose proof (Z.mod_pos_bound m' (Zpos md) ltac:(lia)) as Hr.
  pose proof (Z.div_pos m' (Zpos md) ltac:(lia) ltac:(lia)) as Hq0.
  unfold Z.modulo in Hr. unfold Z.div in Hq0.
  destruct (Z.div_eucl m' (Zpos md)) as [q r].
  apply Magnitude.round_aux_bound; try lia.
  - unfold SpecFloat.emin. change prec with 53. change emax with 1024. lia.
  - change prec with 53. change emax with 1024. lia.
  - assert (P : 2 ^ (54 - e') = 2 ^ (2 - e') * 2 ^ 52).
    { rewrite <- Z.pow_add_r by lia. f_equal. lia. }
    assert (0 < 2 ^ (2 - e')) by (apply Z.pow_pos_nonneg; lia).
    nia.
Qed.

Lemma SF_PI : Prim2SF PI = S754_finite false 7074237752028440 (-51).
Proof. vm_compute. reflexivity. Qed.

Lemma SF_TWO_PI : Prim2SF TWO_PI = S754_finite false 7074237752028440 (-50).
Proof. vm_compute. reflexivity. Qed.

Local Open Scope float_scope.

(** A positive integer is at least [1]. *)
Lemma positive_integer_ge_1 (d : float) :
  (0 <? d) = true -> Number.isInteger d = true -> (1 <=? d) = true.
Proof.
  rewrite IEEE.ltb_0_l, FloatAxioms.leb_spec, IEEE.SF_one. unfold Number.isInteger.
  pose proof (Prim2SF_valid d) as V.
  destruct (Prim2SF d) as [[|]|[|]| |[|] md ed]; try discriminate.
  cbn [valid_binary] in V. intros _ Hi. cbn [Number.SFis_integer] in Hi.
  unfold SFleb, SFcompare.
  destruct (Z.compare_spec (-52) ed) as [E|L|G]; [|reflexivity|].
  - subst ed. apply Z.eqb_eq in Hi.
    rewrite Pos.compare_cont_spec, Pos2Z.inj_compare. unfold Pos.switch_Eq.
    destruct (Z.compare_spec 4503599627370496 (Zpos md)) as [C|C|C]; try reflexivity.
    assert (E52 : (2 ^ 52 = 4503599627370496)%Z) by (vm_compute; reflexivity).
    rewrite E52 in Hi. clear E52.
    assert (Hs : (0 <= Zpos md < 4503599627370496)%Z) by (clear Hi; lia).
    rewrite (Z.mod_small _ _ Hs) in Hi. discriminate Hi.
  - exfalso. pose proof (digits_le_prec md ed V) as D.
    pose proof (Remainder.digits2_bounds md) as [_ B].
    destruct ed as [|p|p]; try lia. apply Z.eqb_eq in Hi.
    assert (P : (2 ^ Zpos (digits2_pos md) <= 2 ^ Zpos p)%Z)
      by (apply Z.pow_le_mono_r; lia).
    assert (Hs : (0 <= Zpos md < 2 ^ Zpos p)%Z) by (clear Hi; lia).
    rewrite (Z.mod_small _ _ Hs) in Hi. discriminate Hi.
Qed.

(** Dividing an angle of [[-PI, PI]] by a number that is at least [1]
    leaves it strictly between [-TWO_PI] and [TWO_PI]. *)
Lemma quotient_in_range (a d : float) :
  (abs a <=? PI) = true -> (1 <=? d) = true ->
  (- TWO_PI <? a / d) = true /\ (a / d <? TWO_PI) = true.
Proof.
  rewrite !FloatAxioms.leb_spec, !FloatAxioms.ltb_spec, abs_spec, opp_spec.
  rewrite SF_PI, SF_TWO_PI, IEEE.SF_one.
  pose proof (Prim2SF_valid a) as Va. pose proof (Prim2SF_valid d) as Vd.
  pose proof (Prim2SF_valid (a / d)) as Vq. rewrite div_spec in *.
  destruct (Prim2SF a) as [sa|[|]| |sa ma ea]; try discriminate.
  { destruct (Prim2SF d) as [[|]|[|]| |[|] md ed]; try discriminate;
      intros _ _; destruct sa; split; reflexivity. }
  destruct (Prim2SF d) as [[|]|[|]| |[|] md ed]; try discriminate.
  { intros _ _; destruct sa; split; reflexivity. }
  cbn [valid_binary] in Va, Vd. intros Ha Hd.
  assert (Ea : (ea <= -51)%Z).
  { unfold SFleb, SFabs, SFcompare in Ha.
    destruct (Z.compare_spec ea (-51)); try discriminate; lia. }
  assert (Ed : (-52 <= ed)%Z).
  { unfold SFleb, SFcompare in Hd.
    destruct (Z.compare_spec (-52) ed); try discriminate; lia. }
  pose proof (digits_le_prec ma ea Va) as Da.
  pose proof (normal_mantissa md ed Vd ltac:(lia)) as Md.
  pose proof (SFdiv_bound sa false ma md ea ed ltac:(lia) Ed Md) as B.
  destruct (SF64div (S754_finite sa ma ea) (S754_finite false md ed))
    as [s|s| |s mr er]; try contradiction.
  - destruct s; split; reflexivity.
  - destruct B as (_ & Er & Mr). cbn [valid_binary] in Vq.
    assert (Hc : (er < -50 \/ (er = -50 /\ Zpos mr <= 2 ^ 52))%Z).
    { destruct (Z_lt_le_dec er (-50)) as [L|G]; [now left|right].
      destruct (Z.eq_dec er (-50)) as [->|N]; [split; [reflexivity|exact Mr]|].
      exfalso. pose proof (normal_mantissa mr er Vq ltac:(lia)) as Mn.
      assert (P : (2 ^ (2 - er) <= 2 ^ 51)%Z) by (apply Z.pow_le_mono_r; lia).
      change (2 ^ 52)%Z with (2 * 2 ^ 51)%Z in Mn.
      assert (0 < 2 ^ 51)%Z by reflexivity. lia. }
    assert (E52 : (2 ^ 52 = 4503599627370496)%Z) by (vm_compute; reflexivity).
    unfold SFltb, SFopp, SFcompare. cbn [negb].
    destruct s; split; try reflexivity.
    + destruct Hc as [L|[-> Mc]].
      * destruct (Z.compare_spec (-50) er); try lia; reflexivity.
      * rewrite Z.compare_refl, Pos.compare_cont_spec, Pos2Z.inj_compare.
        unfold Pos.switch_Eq. rewrite E52 in Mc.
        destruct (Z.compare_spec 7074237752028440 (Zpos mr)) as [C|C|C];
          try reflexivity; lia.
    + destruct Hc as [L|[-> Mc]].
      * destruct (Z.compare_spec er (-50)); try lia; reflexivity.
      * rewrite Z.compare_refl, Pos.compare_cont_spec, Pos2Z.inj_compare.
        unfold Pos.switch_Eq. rewrite E52 in Mc.
        destruct (Z.compare_spec (Zpos mr) 7074237752028440) as [C|C|C];
          try reflexivity; lia.
Qed.

(** A number below [TWO_PI] is either at least [0] or below [0]. *)
Lemma sign_cases (p : float) :
  (p <? TWO_PI) = true -> (0 <=? p) = true \/ (p <? 0) = true.
Proof.
  rewrite IEEE.leb_0_l, IEEE.ltb_0_r, FloatAxioms.ltb_spec, SF_TWO_PI.
  destruct (Prim2SF p) as [[|]|[|]| |[|] m e]; intros H; try discriminate; auto.
Qed.

End Range.

(** ** Tolerance and the sign of zero *)

Section Within.

Lemma add_0_l_cases (x : float) : 0 + x = x \/ (x = -0 /\ 0 + x = 0).
Proof.
  destruct (Prim2SF x) as [[|]|s| |s m e] eqn:E.
  - right. apply IEEE.SF_neg_zero in E. subst x. split; reflexivity.
  - left. apply IEEE.add_0_l. rewrite E. discriminate.
  - left. apply IEEE.add_0_l. rewrite E. discriminate.
  - left. apply IEEE.add_0_l. rewrite E. discriminate.
  - left. apply IEEE.add_0_l. rewrite E. discriminate.
Qed.

Lemma add_0_r_cases (x : float) : x + 0 = x \/ (x = -0 /\ x + 0 = 0).
Proof.
  destruct (Prim2SF x) as [[|]|s| |s m e] eqn:E.
  - right. apply IEEE.SF_neg_zero in E. subst x. split; reflexivity.
  - left. apply IEEE.add_0_r. rewrite E. discriminate.
  - left. apply IEEE.add_0_r. rewrite E. discriminate.
  - left. apply IEEE.add_0_r. rewrite E. discriminate.
  - left. apply IEEE.add_0_r. rewrite E. discriminate.
Qed.

Lemma within_refl (x : float) : Number.isFinite x = true -> within x x = true.
Proof. intros H. unfold within. rewrite IEEE.sub_diag by exact H. reflexivity. Qed.

Lemma within_add_0_l (x : float) :
  Number.isFinite x = true -> within (0 + x) x = true.
Proof.
  intros H. destruct (add_0_l_cases x) as [E|[E1 E2]].
  - rewrite E. now apply within_refl.
  - rewrite E2, E1. reflexivity.
Qed.

Lemma within_add_0_l_zero (x : float) : within (0 + x) 0 = within x 0.
Proof.
  destruct (add_0_l_cases x) as [E|[E1 E2]].
  - now rewrite E.
  - rewrite E2, E1. reflexivity.
Qed.

Lemma isFinite_add_0_l (x : float) :
  Number.isFinite x = true -> Number.isFinite (0 + x) = true.
Proof.
  intros H. destruct (add_0_l_cases x) as [E|[E1 E2]].
  - now rewrite E.
  - rewrite E2. reflexivity.
Qed.

Lemma isFinite_opp (x : float) :
  Number.isFinite x = true -> Number.isFinite (- x) = true.
Proof.
  unfold Number.isFinite. rewrite opp_spec.
  destruct (Prim2SF x); intros; try discriminate; reflexivity.
Qed.

(** The sign of a zero product does not matter to a comparison within
    tolerance. *)
Lemma within_zero_mul_sign (m i : float) : within (0 * m) i = within (-0 * m) i.
Proof.
  unfold within. f_equal. apply Prim2SF_inj.
  rewrite !abs_spec, !sub_spec, !mul_spec.
  change (Prim2SF (-0)) with (S754_zero true). rewrite IEEE.SF_zero.
  destruct (Prim2SF m) as [[|]|[|]| |[|] mm em];
    destruct (Prim2SF i) as [[|]|[|]| |[|] mi ei]; reflexivity.
Qed.

End Within.

(** ** Running the class on numbers *)

Section Evaluation.

Context {M : HostMath}.

Lemma within_0_r (x : float) : within x 0 = (abs x <=? TOLERANCE).
Proof. unfold within. now rewrite IEEE.sub_0_r. Qed.

Lemma createPolar_number (m a : float) :
  createPolar m a
  = if 0 <=? m
    then Ok {| real := cos (reducedArgument m a) * m;
               imaginary := sin (reducedArgument m a) * m;
               modulus := m;
               argument := reducedArgument m a |}
    else Throw RangeViolation.
Proof.
  unfold createPolar, polarToRectangular, new_ComplexNumber,
    Assertions.isNonNegativeNumber.
  cbn. destruct (0 <=? m) eqn:Hm; cbn; [|reflexivity].
  rewrite Hm. reflexivity.
Qed.

Lemma createRectangular_number (r i : float) :
  createRectangular r i
  = if 0 <=? sqrt (r * r + i * i)
    then Ok {| real := r; imaginary := i;
               modulus := sqrt (r * r + i * i);
               argument := storedArgument r i |}
    else Throw RangeViolation.
Proof.
  unfold createRectangular, rectangularToPolar, modulusSquared, argumentOf,
    principalArgument, storedArgument, new_ComplexNumber,
    Assertions.isNonNegativeNumber, within.
  cbn. rewrite !pow_two.
  destruct (abs (r - 0) <=? TOLERANCE); cbn;
    [destruct (abs (i - 0) <=? TOLERANCE); cbn|];
    destruct (0 <=? _); reflexivity.
Qed.

(** [createRectangular] returns an instance for all numbers but [NaN]. *)
Lemma createRectangular_returns (r i : float) :
  Prim2SF r <> S754_nan -> Prim2SF i <> S754_nan ->
  createRectangular r i
  = Ok {| real := r; imaginary := i;
          modulus := sqrt (r * r + i * i);
          argument := storedArgument r i |}.
Proof.
  intros Hr Hi. rewrite createRectangular_number.
  now rewrite IEEE.sqrt_sum_squares_nonneg.
Qed.

(** The constants are what the module computes when it is loaded. *)
Lemma ZERO_created : createRectangular 0 0 = Ok ZERO.
Proof.
  rewrite createRectangular_number. unfold storedArgument. reflexivity.
Qed.

Lemma EAST_created : createRectangular 1 0 = Ok EAST.
Proof.
  rewrite createRectangular_number. unfold storedArgument.
  rewrite atan2_zero_pos by reflexivity. reflexivity.
Qed.

Lemma equals_instance (this that : ComplexNumber) :
  equals this (JsComplexNumber that)
  = Ok (within (re this) (re that) && within (im this) (im that)).
Proof.
  unfold equals, within, re, im. cbn.
  destruct (abs (real this - real that) <=? TOLERANCE); reflexivity.
Qed.

Lemma equals_ZERO (this : ComplexNumber) :
  equals this (JsComplexNumber ZERO)
  = Ok ((abs (re this) <=? TOLERANCE) && (abs (im this) <=? TOLERANCE)).
Proof. rewrite equals_instance. cbn [re im ZERO real imaginary]. now rewrite !within_0_r. Qed.

Lemma divide_instance (this other : ComplexNumber) :
  divide this (JsComplexNumber other)
  = if (abs (re other) <=? TOLERANCE) && (abs (im other) <=? TOLERANCE)
    then Throw DivisionByZero
    else createPolar (mod_ this / mod_ other) (arg this - arg other).
Proof.
  unfold divide, withAssertedNotZero. cbn [withAssertedComplexNumber
    Assertions.isInstanceOfComplexNumber bind].
  rewrite equals_ZERO. cbn [bind].
  destruct (_ && _); reflexivity.
Qed.

End Evaluation.

(** ** Running the class under either reading of the numeric check *)

(** The functions of [Checked] under [TypeValidation] are the functions of
    the class. *)
Lemma Checked_TypeValidation {M : HostMath} (v w : JsValue) (x : ComplexNumber) :
  Checked.withinTolerance Checked.TypeValidation v w = withinTolerance v w /\
  Checked.principalArgument Checked.TypeValidation v w = principalArgument v w /\
  Checked.modulusSquared Checked.TypeValidation v w = modulusSquared v w /\
  Checked.rectangularToPolar Checked.TypeValidation v w = rectangularToPolar v w /\
  Checked.polarToRectangular Checked.TypeValidation v w = polarToRectangular v w /\
  Checked.createRectangular Checked.TypeValidation v w = createRectangular v w /\
  Checked.createPolar Checked.TypeValidation v w = createPolar v w /\
  Checked.equals Checked.TypeValidation x v = equals x v /\
  Checked.add Checked.TypeValidation x v = add x v /\
  Checked.negate Checked.TypeValidation x = negate x /\
  Checked.divide Checked.TypeValidation x v = divide x v /\
  Checked.multiply Checked.TypeValidation x v = multiply x v /\
  Checked.root Checked.TypeValidation x v = root x v /\
  Checked.inverse Checked.TypeValidation x = inverse x.
Proof. repeat split; reflexivity. Qed.

Section CheckedEvaluation.

Context {M : HostMath}.

Variable rd : Checked.Reading.

Lemma passes_finite (x : float) :
  Number.isFinite x = true -> Checked.passes rd x = true.
Proof. intros H. destruct rd; [reflexivity|exact H]. Qed.

Lemma isNumber_passes (x : float) :
  Checked.passes rd x = true -> Checked.isNumber rd x = Ok x.
Proof. intros H. unfold Checked.isNumber. now rewrite H. Qed.

Lemma passes_0 : Checked.passes rd 0 = true.
Proof. now destruct rd. Qed.

Lemma Checked_withinTolerance_number (a b : float) :
  Checked.passes rd a = true -> Checked.passes rd b = true ->
  Checked.withinTolerance rd a b = Ok (within a b).
Proof.
  intros Ha Hb. unfold Checked.withinTolerance.
  rewrite (isNumber_passes a Ha). cbn [bind].
  rewrite (isNumber_passes b Hb). reflexivity.
Qed.

Lemma Checked_createRectangular_returns (r i : float) :
  Number.isFinite r = true -> Number.isFinite i = true ->
  Checked.storable rd r i = true ->
  Checked.createRectangular rd r i
  = Ok {| real := r; imaginary := i;
          modulus := sqrt (r * r + i * i);
          argument := storedArgument r i |}.
Proof.
  intros Hr Hi Hs. unfold Checked.storable in Hs.
  apply andb_true_iff in Hs. destruct Hs as [Hm Ha].
  rewrite !pow_two in Hm.
  pose proof (passes_finite r Hr) as Pr. pose proof (passes_finite i Hi) as Pi.
  pose proof (IEEE.sqrt_sum_squares_nonneg r i (IEEE.finite_not_nan r Hr)
                (IEEE.finite_not_nan i Hi)) as Hn.
  unfold Checked.createRectangular.
  rewrite (isNumber_passes r Pr). cbn [bind].
  rewrite (isNumber_passes i Pi). cbn [bind].
  unfold Checked.rectangularToPolar.
  rewrite (isNumber_passes r Pr). cbn [bind].
  rewrite (isNumber_passes i Pi). cbn [bind].
  unfold Checked.modulusSquared.
  rewrite (isNumber_passes r Pr). cbn [bind].
  rewrite (isNumber_passes i Pi). cbn [bind].
  rewrite !pow_two.
  assert (Ea : Checked.argumentOf rd r i = Ok (storedArgument r i)).
  { unfold Checked.argumentOf.
    rewrite (isNumber_passes r Pr). cbn [bind].
    rewrite (isNumber_passes i Pi). cbn [bind].
    rewrite (Checked_withinTolerance_number r 0 Pr passes_0). cbn [bind].
    unfold storedArgument.
    destruct (within r 0); cbn [andb bind].
    - rewrite (Checked_withinTolerance_number i 0 Pi passes_0). cbn [bind].
      destruct (within i 0); [reflexivity|].
      unfold Checked.principalArgument.
      rewrite (isNumber_passes r Pr). cbn [bind].
      rewrite (isNumber_passes i Pi). reflexivity.
    - unfold Checked.principalArgument.
      rewrite (isNumber_passes r Pr). cbn [bind].
      rewrite (isNumber_passes i Pi). reflexivity. }
  rewrite Ea. cbn [bind fst snd].
  unfold Checked.new_ComplexNumber, Checked.isNonNegativeNumber.
  rewrite (isNumber_passes r Pr). cbn [bind].
  rewrite (isNumber_passes i Pi). cbn [bind].
  rewrite (isNumber_passes _ Hm). cbn [bind]. rewrite Hn. cbn [bind].
  rewrite (isNumber_passes _ Ha). reflexivity.
Qed.

Lemma Checked_equals_instance (this that : ComplexNumber) :
  Number.isFinite (re this) = true -> Number.isFinite (im this) = true ->
  Number.isFinite (re that) = true -> Number.isFinite (im that) = true ->
  Checked.equals rd this (JsComplexNumber that)
  = Ok (within (re this) (re that) && within (im this) (im that)).
Proof.
  intros H1 H2 H3 H4. unfold Checked.equals. cbn [withAssertedComplexNumber
    Assertions.isInstanceOfComplexNumber bind].
  unfold re, im in *.
  rewrite Checked_withinTolerance_number by now apply passes_finite.
  cbn [bind]. destruct (within (real this) (real that)); [|reflexivity].
  rewrite Checked_withinTolerance_number by now apply passes_finite.
  reflexivity.
Qed.

Lemma Checked_ZERO_created : Checked.createRectangular rd 0 0 = Ok ZERO.
Proof.
  assert (Hs : Checked.storable rd 0 0 = true).
  { unfold Checked.storable. rewrite !pow_two.
    assert (E : storedArgument 0 0 = 0) by reflexivity. rewrite E.
    change (sqrt (0 * 0 + 0 * 0)) with 0. now rewrite passes_0. }
  rewrite (Checked_createRectangular_returns 0 0 eq_refl eq_refl Hs).
  unfold storedArgument. reflexivity.
Qed.

Lemma isInteger_isFinite (x : float) :
  Number.isInteger x = true -> Number.isFinite x = true.
Proof.
  unfold Number.isInteger, Number.isFinite.
  destruct (Prim2SF x); intros; try discriminate; reflexivity.
Qed.

Lemma Checked_root_number (this : ComplexNumber) (degree : float) :
  (0 <? degree) = true -> Number.isInteger degree = true ->
  Checked.root rd this degree
  = Checked.createPolar rd (pow (mod_ this) (1 / degree))
      (get_principalArgument this / degree).
Proof.
  intros Hp Hi. pose proof (passes_finite degree (isInteger_isFinite degree Hi)) as Pd.
  unfold Checked.root, Checked.isPositiveNumber, Checked.isIntegerNumber.
  rewrite (isNumber_passes degree Pd). cbn [bind]. rewrite Hp. cbn [bind].
  rewrite Hi. reflexivity.
Qed.

Lemma Checked_createPolar_number (m a : float) :
  Checked.polarStorable rd m a = true ->
  Checked.createPolar rd m a
  = if 0 <=? m
    then Ok {| real := cos (reducedArgument m a) * m;
               imaginary := sin (reducedArgument m a) * m;
               modulus := m;
               argument := reducedArgument m a |}
    else Throw RangeViolation.
Proof.
  unfold Checked.polarStorable. rewrite !andb_true_iff.
  intros [[[[Pm Pa] Pr] Pc] Ps].
  unfold Checked.createPolar, Checked.isNonNegativeNumber.
  rewrite (isNumber_passes m Pm). cbn [bind].
  destruct (0 <=? m) eqn:Hm; [|reflexivity]. cbn [bind].
  rewrite (isNumber_passes a Pa). cbn [bind].
  rewrite (Checked_withinTolerance_number m 0 Pm passes_0). cbn [bind].
  unfold reducedArgument in Pr, Pc, Ps |- *. cbv zeta in Pr, Pc, Ps |- *.
  unfold Checked.polarToRectangular, Checked.isNonNegativeNumber.
  rewrite (isNumber_passes m Pm). cbn [bind]. rewrite Hm. cbn [bind].
  rewrite (isNumber_passes _ Pr). cbn [bind fst snd].
  unfold Checked.new_ComplexNumber, Checked.isNonNegativeNumber.
  rewrite (isNumber_passes _ Pc). cbn [bind].
  rewrite (isNumber_passes _ Ps). cbn [bind].
  rewrite (isNumber_passes m Pm). cbn [bind]. rewrite Hm. cbn [bind].
  rewrite (isNumber_passes _ Pr). reflexivity.
Qed.

(** [createPolar] raises an error for a modulus that does not pass the
    numeric check, or for which [0 <= m] does not hold. *)
Lemma Checked_createPolar_throws (m a : float) :
  Checked.passes rd m = false \/ (0 <=? m) = false ->
  throws (Checked.createPolar rd m a) = true.
Proof.
  intros H. unfold Checked.createPolar, Checked.isNonNegativeNumber, Checked.isNumber.
  destruct (Checked.passes rd m); cbn [bind]; [|reflexivity].
  destruct H as [H|H]; [discriminate|]. now rewrite H.
Qed.

Lemma Checked_divide_instance (this other : ComplexNumber) :
  Checked.passes rd (re other) = true -> Checked.passes rd (im other) = true ->
  Checked.divide rd this (JsComplexNumber other)
  = if (abs (re other) <=? TOLERANCE) && (abs (im other) <=? TOLERANCE)
    then Throw DivisionByZero
    else Checked.createPolar rd (mod_ this / mod_ other) (arg this - arg other).
Proof.
  intros Pr Pi. unfold Checked.divide, Checked.withAssertedNotZero, Checked.equals.
  cbn [withAssertedComplexNumber Assertions.isInstanceOfComplexNumber bind].
  unfold re, im in *. cbn [ZERO real imaginary].
  rewrite (Checked_withinTolerance_number _ 0 Pr passes_0). cbn [bind].
  rewrite !within_0_r.
  destruct (abs (real other) <=? TOLERANCE); cbn [andb bind].
  - rewrite (Checked_withinTolerance_number _ 0 Pi passes_0). cbn [bind].
    rewrite within_0_r. destruct (abs (imaginary other) <=? TOLERANCE); reflexivity.
  - reflexivity.
Qed.

End CheckedEvaluation.

(** ** The scenarios of the specification, on the reference host *)

Example scenario_east_times_west :
  (x <- createRectangular 1 0 ;;
   w <- createRectangular (-1) 0 ;;
   p <- multiply x (JsComplexNumber w) ;;
   equals p (JsComplexNumber w)) = Ok true.
Proof. vm_compute. reflexivity. Qed.

Example scenario_i_squared :
  (i <- createPolar 1 (PI / 2) ;;
   p <- power i 2 ;;
   w <- createPolar 1 PI ;;
   equals p (JsComplexNumber w)) = Ok true.
Proof. vm_compute. reflexivity. Qed.

Example scenario_cube_root_of_i :
  (i <- createRectangular 0 1 ;;
   r <- root i 3 ;;
   e <- createRectangular (sqrt 3 / 2) (1 / 2) ;;
   equals r (JsComplexNumber e)) = Ok true.
Proof. vm_compute. reflexivity. Qed.

Example scenario_logarithm :
  (x <- createRectangular (-5) 0 ;;
   l <- Log x ;;
   e <- createRectangular (log 5) PI ;;
   equals l (JsComplexNumber e)) = Ok true.
Proof. vm_compute. reflexivity. Qed.

Example scenario_quotient :
  (x <- createRectangular 2 (-3) ;;
   y <- createRectangular 5 (-7) ;;
   q <- divide x (JsComplexNumber y) ;;
   e <- createRectangular ((2 * 5 + -3 * -7) / (5 * 5 + -7 * -7))
          ((-3 * 5 - 2 * -7) / (5 * 5 + -7 * -7)) ;;
   equals q (JsComplexNumber e)) = Ok true.
Proof. vm_compute. reflexivity. Qed.

Example scenario_errors :
  createPolar (-1) 1 = Throw RangeViolation /\
  (x <- createRectangular 1 1 ;; divide x (JsComplexNumber ZERO))
  = Throw DivisionByZero /\
  (x <- createRectangular 1 1 ;; add x (JsString "not a number"))
  = Throw InvalidArgument.
Proof. repeat split; vm_compute; reflexivity. Qed.

(** ** Zero canonicalization *)

(** C5. [createPolar(0, theta)] is, for every number [theta] (finite or
    not, of any sign and magnitude), the instance with the four fields
    [0]: it equals [ZERO] under [equals], and each of its fields is within
    tolerance of [0]. *)
Theorem createPolar_zero_modulus {M : HostMath} (theta : float) :
  exists c : ComplexNumber,
    createPolar 0 theta = Ok c /\
    equals c (JsComplexNumber ZERO) = Ok true /\
    within (re c) 0 = true /\ within (im c) 0 = true /\
    within (mod_ c) 0 = true /\ within (arg c) 0 = true.
Proof.
  exists ZERO. rewrite createPolar_number.
  change (0 <=? 0) with true. cbv iota.
  replace (reducedArgument 0 theta) with 0 by reflexivity.
  rewrite cos_zero, sin_zero by reflexivity.
  repeat split; reflexivity.
Qed.

(** C10. A modulus [m] with [0 < m <= TOLERANCE] only has its argument
    snapped: [createPolar(m, theta)] stores the argument [0], keeps the
    modulus [m], has the real part [m] and the imaginary part [0], and
    equals [ZERO]. *)
Theorem createPolar_tiny_modulus {M : HostMath} (m theta : float) :
  (0 <? m) = true -> (m <=? TOLERANCE) = true ->
  createPolar m theta
  = Ok {| real := m; imaginary := 0; modulus := m; argument := 0 |} /\
  equals {| real := m; imaginary := 0; modulus := m; argument := 0 |}
    (JsComplexNumber ZERO) = Ok true.
Proof.
  intros Hpos Hle.
  assert (Hnn : (0 <=? m) = true).
  { rewrite IEEE.leb_0_l. rewrite IEEE.ltb_0_l in Hpos.
    destruct (Prim2SF m) as [[|]|[|]| |[|] mm e]; try discriminate; reflexivity. }
  assert (Hw : within m 0 = true).
  { rewrite within_0_r, IEEE.abs_of_pos; assumption. }
  assert (H0 : 0 * m = 0).
  { destruct (IEEE.pos_leb_TOLERANCE m Hpos Hle) as (mm & e & E).
    apply Prim2SF_inj. rewrite mul_spec, E. reflexivity. }
  split.
  - rewrite createPolar_number, Hnn. unfold reducedArgument. rewrite Hw.
    rewrite cos_zero, sin_zero by reflexivity.
    rewrite IEEE.mul_1_l, H0. reflexivity.
  - rewrite equals_instance. cbn [re im real imaginary ZERO].
    rewrite Hw. reflexivity.
Qed.

Lemma createPolar_tiny_modulus_witness :
  @createPolar reference_math 5e-13 (-100000)
  = Ok {| real := 5e-13; imaginary := 0; modulus := 5e-13; argument := 0 |} /\
  equals {| real := 5e-13; imaginary := 0; modulus := 5e-13; argument := 0 |}
    (JsComplexNumber ZERO) = Ok true.
Proof.
  apply (@createPolar_tiny_modulus reference_math 5e-13 (-100000)); reflexivity.
Defined.

(** ** Equality within tolerance *)

(** C7. [equals] is [true] exactly when the real parts and the imaginary
    parts each differ by at most [TOLERANCE], which is [1e-12]; the two
    components are checked one by one (two instances can be equal although
    their Euclidean distance exceeds the tolerance); an argument that is
    not a [ComplexNumber] is an error. *)
Theorem equals_componentwise (this that : ComplexNumber) (v : JsValue) :
  TOLERANCE = 1e-12 /\
  (exists b : bool,
      equals this (JsComplexNumber that) = Ok b /\
      (b = true <->
       (abs (re this - re that) <=? TOLERANCE) = true /\
       (abs (im this - im that) <=? TOLERANCE) = true)) /\
  (instanceofComplexNumber v = false -> equals this v = Throw InvalidArgument) /\
  (let a := {| real := 1e-12; imaginary := 1e-12;
               modulus := sqrt (1e-12 * 1e-12 + 1e-12 * 1e-12); argument := 0 |} in
   equals a (JsComplexNumber ZERO) = Ok true /\
   (sqrt ((re a - 0) * (re a - 0) + (im a - 0) * (im a - 0)) <=? TOLERANCE) = false).
Proof.
  split; [reflexivity|]. split; [|split].
  - eexists. split; [apply equals_instance|].
    unfold within. apply andb_true_iff.
  - destruct v; try discriminate; reflexivity.
  - split; reflexivity.
Qed.

Lemma equals_componentwise_witness :
  equals EAST JsNull = Throw InvalidArgument.
Proof.
  apply (equals_componentwise EAST EAST JsNull). reflexivity.
Defined.

(** ** Validation of the numeric arguments *)




(** ** Roots *)




(** The principal argument and the stored argument differ below the real
    axis: the square root of [-i] is taken from [-PI/2], not from [3*PI/2]. *)
Example root_uses_principal_argument :
  let south := {| real := 0; imaginary := -1; modulus := 1;
                  argument := 0x1.2d97c7f3321d2p+2 |} in
  @createRectangular reference_math 0 (-1) = Ok south /\
  (PI <? arg south) = true /\
  (@get_principalArgument reference_math south <? 0) = true /\
  @root reference_math south 2
  = Ok {| real := 0x1.6a09e667f3bccp-1; imaginary := -0x1.6a09e667f3bccp-1;
          modulus := 1; argument := 0x1.5fdbbe9bba775p+2 |}.
Proof. cbv zeta. repeat split; vm_compute; reflexivity. Qed.

(** ** Division *)




(** A value that is not an instance is rejected by [divide] as well. *)
Lemma divide_not_instance {M : HostMath} (this : ComplexNumber) (v : JsValue) :
  instanceofComplexNumber v = false -> divide this v = Throw InvalidArgument.
Proof. destruct v; try discriminate; reflexivity. Qed.

(** ** The range of the stored argument *)

(** C2, at the failing input [createPolar(1, -1e-20)]: the remainder
    [-1e-20 % TWO_PI] is [-1e-20], and [-1e-20 + TWO_PI] rounds to
    [TWO_PI], so the stored argument is the excluded upper end of the
    range. *)
Theorem createPolar_argument_reaches_TWO_PI {M : HostMath} :
  exists c : ComplexNumber,
    createPolar 1 (-1e-20) = Ok c /\
    arg c = TWO_PI /\
    (arg c <? TWO_PI) = false.
Proof.
  eexists. rewrite createPolar_number. change (0 <=? 1) with true. cbv iota.
  replace (reducedArgument 1 (-1e-20)) with TWO_PI by (vm_compute; reflexivity).
  repeat split.
Qed.

(** ** Additive identity and inverse *)

(** C8, as stated, fails whichever way the numeric check treats the
    numbers that are not finite.  If it is a type check, the sum of
    [createPolar(1e308, 0)] with itself is an instance with the real part
    [Infinity], which is not equal to itself, because [Infinity - Infinity]
    is [NaN].  If it rejects them, [createPolar(1e200, 0).add(ZERO)] raises
    an error, because the modulus of the sum overflows to [Infinity]. *)
Lemma additive_identity_fails_beyond_finite :
  (let x := {| real := infinity; imaginary := 0;
               modulus := infinity; argument := 0 |} in
   (a <- @createPolar reference_math 1e308 0 ;; add a (JsComplexNumber a)) = Ok x /\
   @add reference_math x (JsComplexNumber ZERO) = Ok x /\
   equals x (JsComplexNumber x) = Ok false) /\
  (let a := {| real := 1e200; imaginary := 0; modulus := 1e200; argument := 0 |} in
   @Checked.createPolar reference_math Checked.FiniteValidation 1e200 0 = Ok a /\
   throws (@Checked.add reference_math Checked.FiniteValidation a
             (JsComplexNumber ZERO)) = true).
Proof. cbv zeta. repeat split; vm_compute; reflexivity. Qed.

(** C8, amended. Under either reading of the numeric check, for every
    instance [x] with finite real and imaginary parts, and as long as the
    modulus and the argument that [createRectangular] computes for the two
    sums pass the check (they always do when it is a type check, and they
    do when they are finite otherwise), [x.add(ZERO)] equals [x] and
    [x.add(x.negate)] equals [ZERO]; [negate] returns [ZERO] when [x]
    equals [ZERO] and [createRectangular(-re, -im)] otherwise. *)
Theorem additive_identity_inverse {M : HostMath} (rd : Checked.Reading)
    (x : ComplexNumber) :
  Number.isFinite (re x) = true -> Number.isFinite (im x) = true ->
  Checked.storable rd (0 + re x) (0 + im x) = true ->
  Checked.storable rd (- re x) (- im x) = true ->
  (exists y : ComplexNumber,
      Checked.add rd x (JsComplexNumber ZERO) = Ok y /\
      Checked.equals rd y (JsComplexNumber x) = Ok true) /\
  (exists n s : ComplexNumber,
      Checked.negate rd x = Ok n /\
      Checked.add rd x (JsComplexNumber n) = Ok s /\
      Checked.equals rd s (JsComplexNumber ZERO) = Ok true) /\
  Checked.negate rd x
  = (if (abs (re x) <=? TOLERANCE) && (abs (im x) <=? TOLERANCE)
     then Ok ZERO
     else Checked.createRectangular rd (- re x) (- im x)).
Proof.
  intros Hr Hi Hs Hn.
  assert (En : Checked.negate rd x
               = if (abs (re x) <=? TOLERANCE) && (abs (im x) <=? TOLERANCE)
                 then Ok ZERO
                 else Checked.createRectangular rd (- re x) (- im x)).
  { unfold Checked.negate.
    rewrite Checked_equals_instance by (assumption || reflexivity).
    cbn [bind re im ZERO real imaginary]. now rewrite !within_0_r. }
  assert (Ha : Checked.add rd x (JsComplexNumber ZERO)
               = Ok {| real := 0 + re x; imaginary := 0 + im x;
                       modulus := sqrt ((0 + re x) * (0 + re x)
                                        + (0 + im x) * (0 + im x));
                       argument := storedArgument (0 + re x) (0 + im x) |}).
  { unfold Checked.add. cbn [withAssertedComplexNumber
      Assertions.isInstanceOfComplexNumber bind].
    change (re ZERO) with 0. change (im ZERO) with 0.
    apply Checked_createRectangular_returns;
      try (now apply isFinite_add_0_l). exact Hs. }
  split; [|split; [|exact En]].
  - eexists. split; [exact Ha|].
    rewrite Checked_equals_instance; cbn [re im real imaginary];
      try assumption; try (now apply isFinite_add_0_l).
    unfold re, im in *. now rewrite !within_add_0_l.
  - rewrite En.
    destruct ((abs (re x) <=? TOLERANCE) && (abs (im x) <=? TOLERANCE)) eqn:Hz.
    + do 2 eexists. split; [reflexivity|]. split; [exact Ha|].
      rewrite Checked_equals_instance; cbn [re im real imaginary ZERO];
        try reflexivity; try (now apply isFinite_add_0_l).
      unfold re, im in *. rewrite !within_add_0_l_zero, !within_0_r. now rewrite Hz.
    + exists {| real := - re x; imaginary := - im x;
                modulus := sqrt (- re x * - re x + - im x * - im x);
                argument := storedArgument (- re x) (- im x) |}, ZERO.
      split; [|split].
      * apply Checked_createRectangular_returns;
          try (now apply isFinite_opp). exact Hn.
      * unfold Checked.add. cbn [withAssertedComplexNumber
          Assertions.isInstanceOfComplexNumber bind re im real imaginary] in *.
        rewrite !IEEE.add_opp_diag_l by assumption. apply Checked_ZERO_created.
      * rewrite Checked_equals_instance; reflexivity.
Qed.

Lemma additive_identity_inverse_witness :
  (exists y : ComplexNumber,
      @Checked.add reference_math Checked.FiniteValidation EAST (JsComplexNumber ZERO)
      = Ok y /\
      Checked.equals Checked.FiniteValidation y (JsComplexNumber EAST) = Ok true) /\
  (exists y : ComplexNumber,
      @add reference_math EAST (JsComplexNumber ZERO) = Ok y /\
      equals y (JsComplexNumber EAST) = Ok true).
Proof.
  split.
  - apply (@additive_identity_inverse reference_math Checked.FiniteValidation EAST);
      reflexivity.
  - apply (@additive_identity_inverse reference_math Checked.TypeValidation EAST);
      reflexivity.
Defined.

(** ** The dual-representation invariant *)

Section Invariant.

Context {M : HostMath}.

Lemma createRectangular_Ok (v w : JsValue) (c : ComplexNumber) :
  createRectangular v w = Ok c ->
  (0 <=? modulus c) = true /\ builtFromRectangular c.
Proof.
  destruct v as [r| | | | | | | |]; try discriminate.
  destruct w as [i| | | | | | | |]; try discriminate.
  rewrite createRectangular_number.
  destruct (0 <=? sqrt (r * r + i * i)) eqn:H; [|discriminate].
  intros E. injection E as <-. unfold builtFromRectangular.
  cbn [real imaginary modulus argument].
  rewrite !pow_two. repeat split. exact H.
Qed.

Lemma createPolar_Ok (v w : JsValue) (c : ComplexNumber) :
  createPolar v w = Ok c ->
  (0 <=? modulus c) = true /\ builtFromPolar c.
Proof.
  destruct v as [m| | | | | | | |]; try discriminate.
  destruct w as [a| | | | | | | |];
    try (unfold createPolar, Assertions.isNonNegativeNumber; cbn;
         destruct (0 <=? m); discriminate).
  rewrite createPolar_number.
  destruct (0 <=? m) eqn:H; [|discriminate].
  intros E. injection E as <-. unfold builtFromPolar.
  cbn [real imaginary modulus argument].
  repeat split; try exact H.
  unfold reducedArgument. intros ->. reflexivity.
Qed.

Lemma ZERO_builtFromRectangular : builtFromRectangular ZERO.
Proof. apply (createRectangular_Ok 0 0), ZERO_created. Qed.

Lemma EAST_builtFromRectangular : builtFromRectangular EAST.
Proof. apply (createRectangular_Ok 1 0), EAST_created. Qed.

Lemma withAssertedNotZero_Ok (v : JsValue) (c : ComplexNumber) :
  withAssertedNotZero v = Ok c -> v = JsComplexNumber c.
Proof.
  unfold withAssertedNotZero.
  destruct v; try discriminate. cbn [withAssertedComplexNumber
    Assertions.isInstanceOfComplexNumber bind].
  rewrite equals_ZERO. cbn [bind].
  destruct (negb _); cbn; [|discriminate]. now intros [= ->].
Qed.

Lemma divide_Ok (x : ComplexNumber) (v : JsValue) (c : ComplexNumber) :
  divide x v = Ok c -> (0 <=? modulus c) = true /\ builtFromPolar c.
Proof.
  unfold divide. destruct (withAssertedNotZero v) as [d|]; [|discriminate].
  apply createPolar_Ok.
Qed.

(** A polar-built instance with finite rectangular parts satisfies the
    invariant. *)
Lemma builtFromPolar_dualRepresentation (c : ComplexNumber) :
  builtFromPolar c -> (0 <=? modulus c) = true ->
  Number.isFinite (real c) = true -> Number.isFinite (imaginary c) = true ->
  dualRepresentation c.
Proof.
  intros (Hr & Hi & Hz) Hm Fr Fi. unfold dualRepresentation.
  rewrite <- Hr, <- Hi. repeat split; auto using within_refl.
Qed.

End Invariant.


(** ** Multiplicative identity and inverse *)

(** The inconsistent instance of [dual_representation_fails_near_zero] is
    not left alone by [EAST]: [x = createRectangular(-1e-12, 0)] has the
    polar fields [1e-12] and [0], from which [multiply] rebuilds the real
    part [1e-12], at distance [2e-12] from the real part of [x]. *)
Lemma multiplicative_identity_fails_near_zero :
  let x := {| real := -1e-12; imaginary := 0;
              modulus := 1e-12; argument := 0 |} in
  @createRectangular reference_math (-1e-12) 0 = Ok x /\
  @multiply reference_math x (JsComplexNumber EAST)
  = Ok {| real := 1e-12; imaginary := 0; modulus := 1e-12; argument := 0 |} /\
  equals {| real := 1e-12; imaginary := 0; modulus := 1e-12; argument := 0 |}
    (JsComplexNumber x) = Ok false.
Proof. cbv zeta. repeat split; vm_compute; reflexivity. Qed.

(** C4, at the failing input [x = createPolar(1e13, 1)], which does not
    equal [ZERO]: the modulus [1 / 1e13] of its inverse is within
    tolerance of [0], so [createPolar] discards the argument of the
    inverse and stores [0]; the product of [x] and its inverse then has
    the argument [1] of [x] and does not equal [EAST].  All the numbers
    are finite, and the result is the same under either reading of the
    numeric check. *)
Theorem inverse_argument_snapped :
  (x <- @createPolar reference_math 1e13 1 ;;
   equals x (JsComplexNumber ZERO)) = Ok false /\
  (x <- @createPolar reference_math 1e13 1 ;;
   Ok (mod_ x, arg x)) = Ok (1e13, 1) /\
  (x <- @createPolar reference_math 1e13 1 ;;
   i <- inverse x ;;
   Ok (mod_ i, arg i)) = Ok (1 / 1e13, 0) /\
  (1 / 1e13 <=? TOLERANCE) = true /\
  (x <- @createPolar reference_math 1e13 1 ;;
   i <- inverse x ;;
   p <- multiply x (JsComplexNumber i) ;;
   Ok (mod_ p, arg p)) = Ok (1e13 * (1 / 1e13), 1) /\
  (x <- @createPolar reference_math 1e13 1 ;;
   i <- inverse x ;;
   p <- multiply x (JsComplexNumber i) ;;
   equals p (JsComplexNumber EAST)) = Ok false /\
  (x <- @Checked.createPolar reference_math Checked.FiniteValidation 1e13 1 ;;
   i <- Checked.inverse Checked.FiniteValidation x ;;
   p <- Checked.multiply Checked.FiniteValidation x (JsComplexNumber i) ;;
   e <- Checked.equals Checked.FiniteValidation p (JsComplexNumber EAST) ;;
   Ok (arg i, arg p, e)) = Ok (0, 1, false).
Proof. repeat split; vm_compute; reflexivity. Qed.

Section Identity.

Context {M : HostMath}.

Lemma multiply_EAST (x : ComplexNumber) :
  multiply x (JsComplexNumber EAST) = createPolar (modulus x) (argument x + 0).
Proof.
  unfold multiply. cbn [withAssertedComplexNumber
    Assertions.isInstanceOfComplexNumber bind mod_ arg EAST modulus argument].
  now rewrite IEEE.mul_1_r.
Qed.

Lemma ltb_0_r_of_nonneg (a : float) : (0 <=? a) = true -> (a <? 0) = false.
Proof.
  rewrite IEEE.leb_0_l, IEEE.ltb_0_r.
  destruct (Prim2SF a) as [[|]|[|]| |[|] m e]; try discriminate; reflexivity.
Qed.

(** An argument of the range [0 <= a < TWO_PI] is left as it is by the
    reduction of [createPolar], up to the sign of zero. *)
Lemma reducedArgument_in_range (m a : float) :
  within m 0 = false -> (0 <=? a) = true -> (a <? TWO_PI) = true ->
  reducedArgument m (a + 0) = a \/
  (a = -0 /\ reducedArgument m (a + 0) = 0).
Proof.
  intros Hm H0 H1. unfold reducedArgument. rewrite Hm.
  destruct (add_0_r_cases a) as [E|[E1 E2]].
  - left. rewrite E. cbv zeta. rewrite Remainder.rem_small by assumption.
    now rewrite ltb_0_r_of_nonneg.
  - right. split; [exact E1|]. rewrite E2. reflexivity.
Qed.

End Identity.

(** ** More facts of binary64 arithmetic *)

Module Arithmetic.

Lemma opp_involutive (x : float) : - - x = x.
Proof.
  apply Prim2SF_inj. rewrite !opp_spec.
  destruct (Prim2SF x) as [s|s| |s m e]; cbn; now rewrite ?negb_involutive.
Qed.

Lemma SFadd_comm (x y : spec_float) : SF64add x y = SF64add y x.
Proof.
  destruct x as [[|]|[|]| |sx mx ex]; destruct y as [[|]|[|]| |sy my ey];
    try reflexivity.
  unfold SF64add, SFadd. rewrite (Z.min_comm ey ex). f_equal. apply Z.add_comm.
Qed.

Lemma add_comm (x y : float) : x + y = y + x.
Proof. apply Prim2SF_inj. rewrite !add_spec. apply SFadd_comm. Qed.

Lemma SFmul_comm (x y : spec_float) : SF64mul x y = SF64mul y x.
Proof.
  destruct x as [[|]|[|]| |sx mx ex]; destruct y as [[|]|[|]| |sy my ey];
    try reflexivity; try (destruct sy; reflexivity); try (destruct sx; reflexivity).
  unfold SF64mul, SFmul.
  now rewrite (xorb_comm sy sx), (Pos.mul_comm my mx), (Z.add_comm ey ex).
Qed.

Lemma mul_comm (x y : float) : x * y = y * x.
Proof. apply Prim2SF_inj. rewrite !mul_spec. apply SFmul_comm. Qed.

(** Subtracting is adding the opposite. *)
Lemma sub_add_opp (x y : float) : x - y = x + - y.
Proof.
  apply Prim2SF_inj. rewrite sub_spec, add_spec, opp_spec.
  destruct (Prim2SF x) as [[|]|[|]| |sx mx ex];
    destruct (Prim2SF y) as [[|]|[|]| |sy my ey]; try reflexivity.
  unfold SF64sub, SF64add, SFsub, SFadd, SFopp. f_equal.
  destruct sy; cbn [negb cond_Zopp]; lia.
Qed.

Lemma SF_minus_one : Prim2SF (-1) = S754_finite true 4503599627370496 (-52).
Proof. reflexivity. Qed.

(** [x * -1] is [-x], for every [x]. *)
Lemma mul_m1_r (x : float) : x * -1 = - x.
Proof.
  apply Prim2SF_inj. rewrite mul_spec, opp_spec, SF_minus_one.
  destruct (Prim2SF x) as [[|]|[|]| |s m e] eqn:E; try reflexivity.
  unfold SF64mul, SFmul, SFopp. rewrite xorb_true_r, Pos.mul_comm.
  change (4503599627370496 * m)%positive with (Nat.iter 52 xO m).
  replace (e + -52)%Z with (e - Z.of_nat 52)%Z by lia.
  apply IEEE.round_aux_shifted. eapply IEEE.valid_finite, E.
Qed.

(** A finite number times zero is a zero. *)
Lemma mul_0_r_is_zero (x : float) :
  Number.isFinite x = true -> PrimFloat.is_zero (x * 0) = true.
Proof.
  unfold Number.isFinite, PrimFloat.is_zero, PrimFloat.zero.
  rewrite FloatAxioms.eqb_spec, mul_spec, IEEE.SF_zero.
  destruct (Prim2SF x) as [[|]|[|]| |[|] m e]; intros; try discriminate; reflexivity.
Qed.

Lemma is_zero_cases (x : float) : PrimFloat.is_zero x = true -> x = 0 \/ x = -0.
Proof.
  unfold PrimFloat.is_zero, PrimFloat.zero.
  rewrite FloatAxioms.eqb_spec, IEEE.SF_zero. intros H.
  destruct (Prim2SF x) as [[|]|[|]| |[|] m e] eqn:E; try discriminate.
  - right. now apply IEEE.SF_neg_zero.
  - left. now apply IEEE.SF_pos_zero.
Qed.

(** The sign of a difference does not matter to its absolute value. *)
Lemma SFabs_round_aux (s s' : bool) (m e : Z) (l : location) :
  SFabs (binary_round_aux prec emax s m e l)
  = SFabs (binary_round_aux prec emax s' m e l).
Proof.
  unfold binary_round_aux.
  destruct (shr_fexp prec emax m e l) as [mrs1 e1].
  destruct (shr_fexp prec emax _ e1 loc_Exact) as [mrs2 e2].
  destruct (shr_m mrs2); try reflexivity.
  destruct (e2 <=? emax - prec)%Z; reflexivity.
Qed.

Lemma SFabs_normalize_opp (z e : Z) :
  SFabs (binary_normalize prec emax (- z) e false)
  = SFabs (binary_normalize prec emax z e false).
Proof.
  destruct z as [|p|p]; cbn [Z.opp binary_normalize]; try reflexivity;
    unfold binary_round; destruct (shl_align _ _ _); apply SFabs_round_aux.
Qed.

Lemma abs_sub_sym (x y : float) : abs (x - y) = abs (y - x).
Proof.
  apply Prim2SF_inj. rewrite !abs_spec, !sub_spec.
  destruct (Prim2SF x) as [[|]|[|]| |sx mx ex];
    destruct (Prim2SF y) as [[|]|[|]| |sy my ey]; try reflexivity.
  unfold SF64sub, SFsub. rewrite (Z.min_comm ey ex).
  rewrite <- SFabs_normalize_opp. f_equal. f_equal. lia.
Qed.

Lemma SF_finite_nonzero_div_diag (s : bool) (m : positive) (e : Z) :
  SF64div (S754_finite s m e) (S754_finite s m e) = Prim2SF 1.
Proof.
  unfold SF64div, SFdiv, SFdiv_core_binary.
  rewrite xorb_nilpotent, !Z.sub_diag.
  change (Z.min (fexp prec emax 0) 0) with (-53)%Z.
  change (0 - -53)%Z with 53%Z. cbv iota.
  rewrite Z.shiftl_mul_pow2 by lia.
  assert (H : Z.div_eucl (Zpos m * 2 ^ 53) (Zpos m) = (2 ^ 53, 0)%Z).
  { pose proof (Z.div_eucl_eq (Zpos m * 2 ^ 53) (Zpos m) ltac:(lia)) as Hq.
    pose proof (Z.mod_pos_bound (Zpos m * 2 ^ 53) (Zpos m) ltac:(lia)) as Hr.
    unfold Z.modulo in Hr.
    destruct (Z.div_eucl (Zpos m * 2 ^ 53) (Zpos m)) as [q r].
    assert (q = 2 ^ 53)%Z by nia. subst q. f_equal. lia. }
  rewrite H. unfold new_location.
  destruct (Z.even (Zpos m)); reflexivity.
Qed.

(** [x / x] is [1] for a finite [x] other than the zeros. *)
Lemma div_diag (x : float) :
  Number.isFinite x = true -> PrimFloat.is_zero x = false -> x / x = 1.
Proof.
  unfold Number.isFinite, PrimFloat.is_zero, PrimFloat.zero.
  rewrite FloatAxioms.eqb_spec, IEEE.SF_zero. intros Hf Hz.
  apply Prim2SF_inj. rewrite div_spec.
  destruct (Prim2SF x) as [[|]|[|]| |s m e]; try discriminate.
  apply SF_finite_nonzero_div_diag.
Qed.

End Arithmetic.

Module Quotient.

Local Open Scope Z_scope.

Lemma div_eucl_exact (a b q : Z) :
  0 < b -> a = b * q -> Z.div_eucl a b = (q, 0).
Proof.
  intros Hb ->.
  pose proof (Z.div_eucl_eq (b * q) b ltac:(lia)) as Hq.
  pose proof (Z.mod_pos_bound (b * q) b Hb) as Hr. unfold Z.modulo in Hr.
  destruct (Z.div_eucl (b * q) b) as [q' r].
  assert (q' = q) by nia. subst q'. f_equal. lia.
Qed.

Lemma SFdiv_one (s : bool) (m : positive) (e : Z) :
  bounded prec emax m e = true ->
  SF64div (S754_finite s m e) (Prim2SF 1) = S754_finite s m e.
Proof.
  intros Hb. destruct (IEEE.bounded_fexp m e Hb) as [Hf _].
  rewrite IEEE.SF_one. unfold SF64div, SFdiv, SFdiv_core_binary.
  rewrite xorb_false_r.
  change (Zdigits2 (Zpos 4503599627370496)) with 53.
  cbn [Zdigits2].
  set (D := Zpos (digits2_pos m)) in *.
  assert (HD : 0 < D) by (subst D; lia).
  unfold fexp, SpecFloat.emin in Hf |- *.
  change prec with 53 in *. change emax with 1024 in *.
  set (e' := Z.min (Z.max (D + e - (53 + -52) - 53) (3 - 1024 - 53)) (e - -52)).
  assert (He : e' = e \/ e' = e - 1) by (subst e'; lia).
  destruct He as [He|He]; rewrite He.
  - replace (e - -52 - e) with 52 by lia. cbv iota.
    rewrite Z.shiftl_mul_pow2 by lia.
    rewrite (div_eucl_exact _ _ (Zpos m)) by lia.
    change (new_location 4503599627370496 0) with loc_Exact.
    replace e with (e - Z.of_nat 0) at 1 by (cbn; lia).
    now apply (IEEE.round_aux_shifted s m e 0).
  - replace (e - -52 - (e - 1)) with 53 by lia. cbv iota.
    rewrite Z.shiftl_mul_pow2 by lia.
    rewrite (div_eucl_exact _ _ (Zpos (Nat.iter 1 xO m))) by (change (Nat.iter 1 xO m) with (m~0)%positive; lia).
    change (new_location 4503599627370496 0) with loc_Exact.
    change (e - 1) with (e - Z.of_nat 1).
    now apply (IEEE.round_aux_shifted s m e 1).
Qed.

Local Open Scope float_scope.

(** [x / 1] is [x], for every [x]. *)
Lemma div_1_r (x : float) : x / 1 = x.
Proof.
  apply Prim2SF_inj. rewrite div_spec.
  destruct (Prim2SF x) as [[|]|[|]| |s m e] eqn:E;
    try (rewrite IEEE.SF_one; reflexivity).
  apply SFdiv_one. eapply IEEE.valid_finite, E.
Qed.

End Quotient.

(** ** Further properties of the class *)

Section Operations.

Context {M : HostMath}.

Lemma is_nan_false (x : float) : PrimFloat.is_nan x = false -> Prim2SF x <> S754_nan.
Proof.
  unfold PrimFloat.is_nan. rewrite FloatAxioms.eqb_spec. intros H E.
  rewrite E in H. discriminate.
Qed.

Lemma isFinite_is_nan (x : float) : Number.isFinite x = true -> PrimFloat.is_nan x = false.
Proof.
  unfold Number.isFinite, PrimFloat.is_nan. rewrite FloatAxioms.eqb_spec.
  unfold SFeqb, SFcompare.
  destruct (Prim2SF x) as [[|]|[|]| |[|] m e]; intros; try discriminate; try reflexivity;
    now rewrite Z.compare_refl, Pos.compare_cont_refl.
Qed.

Lemma add_instance (x y : ComplexNumber) :
  add x (JsComplexNumber y) = createRectangular (re y + re x) (im y + im x).
Proof. reflexivity. Qed.

Lemma subtract_instance (x y : ComplexNumber) :
  subtract x (JsComplexNumber y) = createRectangular (re x - re y) (im x - im y).
Proof. reflexivity. Qed.

Lemma multiply_instance (x y : ComplexNumber) :
  multiply x (JsComplexNumber y) = createPolar (mod_ x * mod_ y) (arg x + arg y).
Proof. reflexivity. Qed.

Lemma negate_instance (x : ComplexNumber) :
  negate x
  = if (abs (re x) <=? TOLERANCE) && (abs (im x) <=? TOLERANCE)
    then Ok ZERO
    else createRectangular (- re x) (- im x).
Proof. unfold negate. rewrite equals_ZERO. reflexivity. Qed.

Lemma createPolar_one (a : float) :
  createPolar 1 a
  = Ok {| real := cos (reducedArgument 1 a); imaginary := sin (reducedArgument 1 a);
          modulus := 1; argument := reducedArgument 1 a |}.
Proof.
  rewrite createPolar_number. change (0 <=? 1) with true. cbv iota.
  now rewrite !IEEE.mul_1_r.
Qed.

(** The reduction of [createPolar] leaves an argument of the range
    [0 <= a < TWO_PI] alone when the modulus is not near zero. *)
Lemma reducedArgument_fixed (m a : float) :
  within m 0 = false -> (0 <=? a) = true -> (a <? TWO_PI) = true ->
  reducedArgument m a = a.
Proof.
  intros Hm H0 H1. unfold reducedArgument. rewrite Hm. cbv zeta.
  rewrite Remainder.rem_small by assumption.
  now rewrite ltb_0_r_of_nonneg.
Qed.

Lemma createPolar_again (c : ComplexNumber) :
  builtFromPolar c -> (0 <=? modulus c) = true ->
  (0 <=? argument c) = true -> (argument c <? TWO_PI) = true ->
  createPolar (modulus c) (argument c) = Ok c.
Proof.
  intros (Hr & Hi & Hz) Hm H0 H1. rewrite createPolar_number, Hm.
  assert (E : reducedArgument (modulus c) (argument c) = argument c).
  { destruct (within (modulus c) 0) eqn:Hw.
    - unfold reducedArgument. rewrite Hw. symmetry. now apply Hz.
    - now apply reducedArgument_fixed. }
  rewrite E, <- Hr, <- Hi. now destruct c.
Qed.

End Operations.

(** X1. Conjugating twice rebuilds the instance from its rectangular
    parts: the second conjugate is [createRectangular(re, im)], it equals
    the instance, and it is the instance itself when this one is
    rectangular-built. *)
Theorem conjugate_involutive {M : HostMath} (x : ComplexNumber) :
  Number.isFinite (re x) = true -> Number.isFinite (im x) = true ->
  exists c d : ComplexNumber,
    conjugate x = Ok c /\ re c = re x /\ im c = - im x /\
    conjugate c = Ok d /\ createRectangular (re x) (im x) = Ok d /\
    equals d (JsComplexNumber x) = Ok true /\
    (builtFromRectangular x -> d = x).
Proof.
  intros Hr Hi. unfold re, im in *.
  assert (Hc : conjugate x
               = Ok {| real := real x; imaginary := - imaginary x;
                       modulus := sqrt (real x * real x
                                        + - imaginary x * - imaginary x);
                       argument := storedArgument (real x) (- imaginary x) |}).
  { apply createRectangular_returns; apply IEEE.finite_not_nan;
      [assumption|now apply isFinite_opp]. }
  assert (Hd : createRectangular (real x) (imaginary x)
               = Ok {| real := real x; imaginary := imaginary x;
                       modulus := sqrt (real x * real x + imaginary x * imaginary x);
                       argument := storedArgument (real x) (imaginary x) |}).
  { apply createRectangular_returns; now apply IEEE.finite_not_nan. }
  do 2 eexists. split; [exact Hc|]. split; [reflexivity|]. split; [reflexivity|].
  split; [|split; [exact Hd|split]].
  - unfold conjugate. cbn [real imaginary].
    rewrite Arithmetic.opp_involutive. exact Hd.
  - rewrite equals_instance. unfold re, im. cbn [real imaginary].
    now rewrite !within_refl.
  - intros [Hm Ha]. rewrite !pow_two in Hm. rewrite <- Hm, <- Ha. now destruct x.
Qed.

Lemma conjugate_involutive_witness :
  exists c d : ComplexNumber,
    @conjugate reference_math EAST = Ok c /\ re c = re EAST /\ im c = - im EAST /\
    @conjugate reference_math c = Ok d /\
    @createRectangular reference_math (re EAST) (im EAST) = Ok d /\
    equals d (JsComplexNumber EAST) = Ok true /\
    (@builtFromRectangular reference_math EAST -> d = EAST).
Proof.
  apply (@conjugate_involutive reference_math EAST); reflexivity.
Defined.

(** X2. Subtracting an instance with finite parts from itself gives
    exactly [ZERO], and subtracting [ZERO] rebuilds the instance from its
    unchanged rectangular parts. *)
Theorem subtract_self_and_zero {M : HostMath} (x : ComplexNumber) :
  Number.isFinite (re x) = true -> Number.isFinite (im x) = true ->
  subtract x (JsComplexNumber x) = Ok ZERO /\
  subtract x (JsComplexNumber ZERO) = createRectangular (re x) (im x) /\
  exists d : ComplexNumber,
    subtract x (JsComplexNumber ZERO) = Ok d /\
    re d = re x /\ im d = im x /\ equals d (JsComplexNumber x) = Ok true.
Proof.
  intros Hr Hi. rewrite !subtract_instance.
  rewrite !IEEE.sub_diag by assumption.
  change (re ZERO) with 0. change (im ZERO) with 0. rewrite !IEEE.sub_0_r.
  split; [apply ZERO_created|]. split; [reflexivity|].
  eexists. split; [apply createRectangular_returns; now apply IEEE.finite_not_nan|].
  split; [reflexivity|]. split; [reflexivity|].
  rewrite equals_instance. unfold re, im in *. cbn [real imaginary].
  now rewrite !within_refl.
Qed.

Lemma subtract_self_and_zero_witness :
  @subtract reference_math EAST (JsComplexNumber EAST) = Ok ZERO.
Proof.
  apply (@subtract_self_and_zero reference_math EAST); reflexivity.
Defined.

(** X3. Subtraction is addition of the negation: when [y] has finite
    parts and does not equal [ZERO], [x.subtract(y)] and
    [x.add(y.negate)] are the same result. *)
Theorem subtract_is_add_negate {M : HostMath} (x y : ComplexNumber) :
  Number.isFinite (re y) = true -> Number.isFinite (im y) = true ->
  equals y (JsComplexNumber ZERO) = Ok false ->
  exists n : ComplexNumber,
    negate y = Ok n /\ re n = - re y /\ im n = - im y /\
    subtract x (JsComplexNumber y) = add x (JsComplexNumber n).
Proof.
  intros Hr Hi Hz. rewrite equals_ZERO in Hz. injection Hz as Hz.
  rewrite negate_instance, Hz.
  eexists. split.
  { apply createRectangular_returns; apply IEEE.finite_not_nan; now apply isFinite_opp. }
  split; [reflexivity|]. split; [reflexivity|].
  rewrite subtract_instance, add_instance. unfold re, im. cbn [real imaginary].
  now rewrite !Arithmetic.sub_add_opp, !(Arithmetic.add_comm (- _)).
Qed.

Lemma subtract_is_add_negate_witness :
  exists n : ComplexNumber,
    @negate reference_math EAST = Ok n /\ re n = - re EAST /\ im n = - im EAST /\
    @subtract reference_math ZERO (JsComplexNumber EAST)
    = @add reference_math ZERO (JsComplexNumber n).
Proof.
  apply (@subtract_is_add_negate reference_math ZERO EAST); reflexivity.
Defined.

(** X4. Addition is commutative, result for result. *)
Theorem add_commutative {M : HostMath} (x y : ComplexNumber) :
  add x (JsComplexNumber y) = add y (JsComplexNumber x).
Proof.
  rewrite !add_instance.
  now rewrite (Arithmetic.add_comm (re y)), (Arithmetic.add_comm (im y)).
Qed.

(** X5. Multiplication is commutative, result for result. *)
Theorem multiply_commutative {M : HostMath} (x y : ComplexNumber) :
  multiply x (JsComplexNumber y) = multiply y (JsComplexNumber x).
Proof.
  rewrite !multiply_instance.
  now rewrite (Arithmetic.mul_comm (mod_ x)), (Arithmetic.add_comm (arg x)).
Qed.

(** X6. [scale] by [1] rebuilds the instance from its unchanged
    rectangular parts, [scale] by [-1] is the negation of an instance that
    does not equal [ZERO], [scale] by [0] of finite parts gives modulus
    and argument [0] and equals [ZERO], and a scalar that is not a number
    is an error. *)
Theorem scale_by_units {M : HostMath} (x : ComplexNumber) (v : JsValue) :
  (typeofNumber v = false -> scale x v = Throw InvalidArgument) /\
  scale x 1 = createRectangular (re x) (im x) /\
  scale x (-1) = createRectangular (- re x) (- im x) /\
  (equals x (JsComplexNumber ZERO) = Ok false -> negate x = scale x (-1)) /\
  (Number.isFinite (re x) = true -> Number.isFinite (im x) = true ->
   exists z : ComplexNumber,
     scale x 0 = Ok z /\ mod_ z = 0 /\ arg z = 0 /\
     equals z (JsComplexNumber ZERO) = Ok true).
Proof.
  assert (H1 : scale x 1 = createRectangular (re x) (im x)).
  { unfold scale. cbn [Assertions.isNumber bind]. now rewrite !IEEE.mul_1_r. }
  assert (Hm : scale x (-1) = createRectangular (- re x) (- im x)).
  { unfold scale. cbn [Assertions.isNumber bind]. now rewrite !Arithmetic.mul_m1_r. }
  split; [destruct v; try discriminate; reflexivity|].
  split; [exact H1|]. split; [exact Hm|]. split.
  - intros Hz. rewrite equals_ZERO in Hz. injection Hz as Hz.
    now rewrite negate_instance, Hz, Hm.
  - intros Hr Hi. unfold re, im in *.
    unfold scale. cbn [Assertions.isNumber bind].
    destruct (Arithmetic.is_zero_cases _ (Arithmetic.mul_0_r_is_zero _ Hr)) as [-> | ->];
      destruct (Arithmetic.is_zero_cases _ (Arithmetic.mul_0_r_is_zero _ Hi)) as [-> | ->];
      rewrite createRectangular_number; eexists; (split; [reflexivity|]);
      repeat split; reflexivity.
Qed.

Lemma scale_by_units_witness :
  exists z : ComplexNumber,
    @scale reference_math EAST 0 = Ok z /\ mod_ z = 0 /\ arg z = 0 /\
    equals z (JsComplexNumber ZERO) = Ok true.
Proof.
  destruct (@scale_by_units reference_math EAST JsNull) as (_ & _ & _ & _ & H).
  apply H; reflexivity.
Defined.

(** X7. [normalise] fails with the division-by-zero error exactly when the
    instance equals [ZERO]; otherwise it returns an instance of modulus
    [1], whatever the stored fields are.  When the stored argument lies in
    [0 <= arg < TWO_PI] it is kept, the rectangular parts are its cosine
    and sine, and normalising the result again changes nothing. *)
Theorem normalise_unit {M : HostMath} (x : ComplexNumber) :
  (equals x (JsComplexNumber ZERO) = Ok true -> normalise x = Throw DivisionByZero) /\
  (equals x (JsComplexNumber ZERO) = Ok false ->
   exists n : ComplexNumber,
     normalise x = Ok n /\ mod_ n = 1 /\
     ((0 <=? arg x) = true -> (arg x <? TWO_PI) = true ->
      arg n = arg x /\ re n = cos (arg x) /\ im n = sin (arg x) /\
      (equals n (JsComplexNumber ZERO) = Ok false -> normalise n = Ok n))).
Proof.
  assert (Hn : forall y : ComplexNumber,
             normalise y
             = if (abs (re y) <=? TOLERANCE) && (abs (im y) <=? TOLERANCE)
               then Throw DivisionByZero
               else createPolar 1 (argument y)).
  { intros y. unfold normalise, withAssertedNotZero.
    cbn [withAssertedComplexNumber Assertions.isInstanceOfComplexNumber bind].
    rewrite equals_ZERO. cbn [bind]. destruct (_ && _); reflexivity. }
  rewrite equals_ZERO, Hn.
  destruct ((abs (re x) <=? TOLERANCE) && (abs (im x) <=? TOLERANCE)).
  - split; [reflexivity|discriminate].
  - split; [discriminate|]. intros _. rewrite createPolar_one.
    eexists. split; [reflexivity|]. split; [reflexivity|].
    intros H0 H1. unfold arg, re, im in *. cbn [real imaginary modulus argument].
    rewrite (reducedArgument_fixed 1 (argument x)) by (assumption || reflexivity).
    repeat split. intros Hz. rewrite equals_ZERO in Hz. injection Hz as Hz.
    rewrite Hn. unfold re, im. cbn [real imaginary argument]. rewrite Hz.
    rewrite createPolar_one.
    now rewrite (reducedArgument_fixed 1 (argument x)) by (assumption || reflexivity).
Qed.

Lemma normalise_unit_witness :
  exists n : ComplexNumber,
    @normalise reference_math EAST = Ok n /\ mod_ n = 1 /\
    ((0 <=? arg EAST) = true -> (arg EAST <? TWO_PI) = true ->
     arg n = arg EAST /\ re n = cos (arg EAST) /\ im n = sin (arg EAST) /\
     (equals n (JsComplexNumber ZERO) = Ok false ->
      @normalise reference_math n = Ok n)).
Proof.
  destruct (@normalise_unit reference_math EAST) as (_ & H).
  apply H. reflexivity.
Defined.

(** X8. The exponent [0]: when the host computes [mod ** 0] as [1], which
    ECMA-262 prescribes, and the stored argument is finite, [power(0)]
    returns an instance of modulus [1] and real part [1] that equals
    [EAST], for [ZERO] as for every other instance.  An exponent that is
    not an integer is an error. *)
Theorem power_zero {M : HostMath} (x : ComplexNumber) (e : float) :
  (Number.isInteger e = false -> power x e = Throw InvalidArgument) /\
  (pow (modulus x) 0 = 1 -> Number.isFinite (arg x) = true ->
   exists p : ComplexNumber,
     power x 0 = Ok p /\ mod_ p = 1 /\ re p = 1 /\
     equals p (JsComplexNumber EAST) = Ok true).
Proof.
  split.
  - intros H. unfold power, Assertions.isIntegerNumber.
    cbn [Assertions.isNumber bind]. now rewrite H.
  - intros Hp Ha. unfold arg in Ha.
    assert (E : power x 0 = createPolar 1 (argument x * 0)).
    { unfold power, Assertions.isIntegerNumber. cbn [Assertions.isNumber bind].
      change (Number.isInteger 0) with true. cbv iota. cbn [bind]. now rewrite Hp. }
    rewrite E, createPolar_one.
    destruct (Arithmetic.is_zero_cases _ (Arithmetic.mul_0_r_is_zero _ Ha)) as [-> | ->].
    + replace (reducedArgument 1 0) with 0 by reflexivity.
      rewrite cos_zero, sin_zero by reflexivity.
      eexists. split; [reflexivity|]. repeat split.
    + replace (reducedArgument 1 (-0)) with (-0) by (vm_compute; reflexivity).
      rewrite cos_zero, sin_zero by reflexivity.
      eexists. split; [reflexivity|]. repeat split.
Qed.

Lemma power_zero_witness :
  exists p : ComplexNumber,
    @power reference_math ZERO 0 = Ok p /\ mod_ p = 1 /\ re p = 1 /\
    equals p (JsComplexNumber EAST) = Ok true.
Proof.
  destruct (@power_zero reference_math ZERO 0) as (_ & H).
  apply H; reflexivity.
Defined.

(** X9. A polar round trip: an instance that [createPolar] returned, with
    its argument in [0 <= arg < TWO_PI], is returned again, field for
    field, by [createPolar] on its own modulus and argument. *)
Theorem createPolar_round_trip {M : HostMath} (m a : JsValue) (c : ComplexNumber) :
  createPolar m a = Ok c ->
  (0 <=? arg c) = true -> (arg c <? TWO_PI) = true ->
  createPolar (mod_ c) (arg c) = Ok c.
Proof.
  intros H H0 H1. destruct (createPolar_Ok m a c H) as [Hm Hp].
  now apply createPolar_again.
Qed.

Lemma createPolar_round_trip_witness :
  @createPolar reference_math (mod_ EAST) (arg EAST) = Ok EAST.
Proof.
  apply (@createPolar_round_trip reference_math 1 0 EAST); reflexivity.
Defined.

(** X10. The tolerance comparison is symmetric, and reflexive on finite
    parts, but it is not transitive: [0] and [2e-12] both equal [1e-12]
    and do not equal each other. *)
Theorem equals_symmetric_not_transitive (x y : ComplexNumber) :
  equals x (JsComplexNumber y) = equals y (JsComplexNumber x) /\
  (Number.isFinite (re x) = true -> Number.isFinite (im x) = true ->
   equals x (JsComplexNumber x) = Ok true) /\
  (let a := ZERO in
   let b := {| real := 1e-12; imaginary := 0; modulus := 1e-12; argument := 0 |} in
   let c := {| real := 2e-12; imaginary := 0; modulus := 2e-12; argument := 0 |} in
   equals a (JsComplexNumber b) = Ok true /\
   equals b (JsComplexNumber c) = Ok true /\
   equals a (JsComplexNumber c) = Ok false).
Proof.
  split; [|split].
  - rewrite !equals_instance. unfold within.
    now rewrite (Arithmetic.abs_sub_sym (re x)), (Arithmetic.abs_sub_sym (im x)).
  - intros Hr Hi. rewrite equals_instance. now rewrite !within_refl.
  - repeat split; reflexivity.
Qed.

Lemma equals_symmetric_not_transitive_witness :
  equals EAST (JsComplexNumber EAST) = Ok true.
Proof.
  destruct (equals_symmetric_not_transitive EAST EAST) as (_ & H & _).
  apply H; reflexivity.
Defined.

Section Conversions.

Context {M : HostMath}.

Lemma rectangularToPolar_number (r i : float) :
  rectangularToPolar r i = Ok (sqrt (r * r + i * i), storedArgument r i).
Proof.
  unfold rectangularToPolar, modulusSquared, argumentOf, principalArgument,
    storedArgument, within. cbn. rewrite !pow_two.
  destruct (abs (r - 0) <=? TOLERANCE); cbn;
    [destruct (abs (i - 0) <=? TOLERANCE)|]; reflexivity.
Qed.

Lemma polarToRectangular_number (m a : float) :
  polarToRectangular m a
  = if 0 <=? m then Ok (cos a * m, sin a * m) else Throw RangeViolation.
Proof.
  unfold polarToRectangular, Assertions.isNonNegativeNumber. cbn.
  destruct (0 <=? m); reflexivity.
Qed.

Lemma abs_opp (x : float) : abs (- x) = abs x.
Proof.
  apply Prim2SF_inj. rewrite !abs_spec, opp_spec.
  destruct (Prim2SF x); reflexivity.
Qed.

End Conversions.

(** X11. The two conversions compose: for numbers other than [NaN],
    infinities included, [rectangularToPolar] returns a modulus
    [sqrt(r*r + i*i)] that is not negative, so [polarToRectangular]
    accepts its output and [createRectangular] returns the instance with
    exactly these four fields. *)
Theorem rectangularToPolar_accepted {M : HostMath} (r i : float) :
  PrimFloat.is_nan r = false -> PrimFloat.is_nan i = false ->
  exists m a : float,
    rectangularToPolar r i = Ok (m, a) /\
    m = sqrt (r * r + i * i) /\ (0 <=? m) = true /\
    polarToRectangular m a = Ok (cos a * m, sin a * m) /\
    createRectangular r i
    = Ok {| real := r; imaginary := i; modulus := m; argument := a |}.
Proof.
  intros Hr Hi. apply is_nan_false in Hr, Hi.
  pose proof (IEEE.sqrt_sum_squares_nonneg r i Hr Hi) as Hm.
  do 2 eexists. split; [apply rectangularToPolar_number|].
  split; [reflexivity|]. split; [exact Hm|]. split.
  - now rewrite polarToRectangular_number, Hm.
  - now apply createRectangular_returns.
Qed.

Lemma rectangularToPolar_accepted_witness :
  exists m a : float,
    @rectangularToPolar reference_math infinity (-3) = Ok (m, a) /\
    m = sqrt (infinity * infinity + -3 * -3) /\ (0 <=? m) = true /\
    @polarToRectangular reference_math m a = Ok (cos a * m, sin a * m) /\
    @createRectangular reference_math infinity (-3)
    = Ok {| real := infinity; imaginary := -3; modulus := m; argument := a |}.
Proof.
  apply (@rectangularToPolar_accepted reference_math infinity (-3)); reflexivity.
Defined.

(** X12. An instance with a finite modulus other than zero and a finite
    argument, divided by itself, is exactly [EAST]. *)
Theorem divide_self {M : HostMath} (x : ComplexNumber) :
  equals x (JsComplexNumber ZERO) = Ok false ->
  Number.isFinite (mod_ x) = true -> PrimFloat.is_zero (mod_ x) = false ->
  Number.isFinite (arg x) = true ->
  divide x (JsComplexNumber x) = Ok EAST.
Proof.
  intros Hz Hm Hnz Ha. rewrite equals_ZERO in Hz. injection Hz as Hz.
  rewrite divide_instance, Hz.
  rewrite Arithmetic.div_diag, IEEE.sub_diag by assumption.
  rewrite createPolar_one.
  replace (reducedArgument 1 0) with 0 by reflexivity.
  now rewrite cos_zero, sin_zero by reflexivity.
Qed.

Lemma divide_self_witness :
  @divide reference_math EAST (JsComplexNumber EAST) = Ok EAST.
Proof.
  apply (@divide_self reference_math EAST); reflexivity.
Defined.

(** X13. Dividing by [EAST] rebuilds an instance from its own polar
    fields; an instance that [createPolar] returned, with its argument in
    [0 <= arg < TWO_PI], is returned unchanged. *)
Theorem divide_by_EAST {M : HostMath} (m a : JsValue) (x c : ComplexNumber) :
  divide x (JsComplexNumber EAST) = createPolar (mod_ x) (arg x) /\
  (createPolar m a = Ok c ->
   (0 <=? arg c) = true -> (arg c <? TWO_PI) = true ->
   divide c (JsComplexNumber EAST) = Ok c).
Proof.
  assert (H : forall y, divide y (JsComplexNumber EAST) = createPolar (mod_ y) (arg y)).
  { intros y. rewrite divide_instance.
    change ((abs (re EAST) <=? TOLERANCE) && (abs (im EAST) <=? TOLERANCE)) with false.
    cbv iota. change (mod_ EAST) with 1. change (arg EAST) with 0.
    now rewrite Quotient.div_1_r, IEEE.sub_0_r. }
  split; [apply H|]. intros Hc H0 H1. rewrite H.
  destruct (createPolar_Ok m a c Hc) as [Hm Hp]. now apply createPolar_again.
Qed.

Lemma divide_by_EAST_witness :
  @divide reference_math EAST (JsComplexNumber EAST) = Ok EAST.
Proof.
  destruct (@divide_by_EAST reference_math 1 0 EAST EAST) as (_ & H).
  apply H; reflexivity.
Defined.

(** X14. [ZERO] absorbs: the product of an instance of finite modulus
    with [ZERO], in either order, has the argument [0] and equals [ZERO]. *)
Theorem multiply_ZERO {M : HostMath} (x : ComplexNumber) :
  Number.isFinite (mod_ x) = true ->
  exists p : ComplexNumber,
    multiply x (JsComplexNumber ZERO) = Ok p /\
    multiply ZERO (JsComplexNumber x) = Ok p /\
    arg p = 0 /\ PrimFloat.is_zero (mod_ p) = true /\
    equals p (JsComplexNumber ZERO) = Ok true.
Proof.
  intros Hm.
  assert (E : multiply ZERO (JsComplexNumber x) = multiply x (JsComplexNumber ZERO)).
  { rewrite !multiply_instance.
    now rewrite (Arithmetic.mul_comm (mod_ ZERO)), (Arithmetic.add_comm (arg ZERO)). }
  rewrite E, multiply_instance. change (mod_ ZERO) with 0.
  destruct (Arithmetic.is_zero_cases _ (Arithmetic.mul_0_r_is_zero _ Hm)) as [-> | ->];
    rewrite createPolar_number.
  - change (0 <=? 0) with true. cbv iota.
    replace (reducedArgument 0 (arg x + arg ZERO)) with 0 by reflexivity.
    rewrite cos_zero, sin_zero by reflexivity.
    eexists. split; [reflexivity|]. repeat split.
  - change (0 <=? -0) with true. cbv iota.
    replace (reducedArgument (-0) (arg x + arg ZERO)) with 0 by reflexivity.
    rewrite cos_zero, sin_zero by reflexivity.
    eexists. split; [reflexivity|]. repeat split.
Qed.

Lemma multiply_ZERO_witness :
  exists p : ComplexNumber,
    @multiply reference_math EAST (JsComplexNumber ZERO) = Ok p /\
    @multiply reference_math ZERO (JsComplexNumber EAST) = Ok p /\
    arg p = 0 /\ PrimFloat.is_zero (mod_ p) = true /\
    equals p (JsComplexNumber ZERO) = Ok true.
Proof.
  apply (@multiply_ZERO reference_math EAST); reflexivity.
Defined.

(** X15. The constants load on every host: each of the seven calls
    returns an instance of modulus [1]; the axis constants have the exact
    rectangular parts, and the diagonal constants store the arguments
    [PI/4], [3*PI/4], [5*PI/4] and [7*PI/4] as binary64 computes them, with
    their cosine and sine as rectangular parts. *)
Theorem constants_load {M : HostMath} :
  (exists c, NORTH = Ok c /\ re c = 0 /\ im c = 1 /\ mod_ c = 1) /\
  (exists c, WEST = Ok c /\ re c = -1 /\ im c = 0 /\ mod_ c = 1) /\
  (exists c, SOUTH = Ok c /\ re c = 0 /\ im c = -1 /\ mod_ c = 1) /\
  (forall k : float, k = 1 \/ k = 3 \/ k = 5 \/ k = 7 ->
   createPolar 1 (k * PI / 4)
   = Ok {| real := cos (k * PI / 4); imaginary := sin (k * PI / 4);
           modulus := 1; argument := k * PI / 4 |}) /\
  NORTH_EAST = createPolar 1 (1 * PI / 4) /\
  NORTH_WEST = createPolar 1 (3 * PI / 4) /\
  SOUTH_WEST = createPolar 1 (5 * PI / 4) /\
  SOUTH_EAST = createPolar 1 (7 * PI / 4).
Proof.
  split; [|split; [|split; [|split; [|repeat split]]]].
  - unfold NORTH. rewrite createRectangular_number.
    eexists. split; [reflexivity|]. repeat split.
  - unfold WEST. rewrite createRectangular_number.
    eexists. split; [reflexivity|]. repeat split.
  - unfold SOUTH. rewrite createRectangular_number.
    eexists. split; [reflexivity|]. repeat split.
  - intros k Hk. rewrite createPolar_one.
    assert (E : reducedArgument 1 (k * PI / 4) = k * PI / 4)
      by (destruct Hk as [-> | [-> | [-> | ->]]]; vm_compute; reflexivity).
    now rewrite E.
Qed.

Lemma constants_load_witness :
  @createPolar reference_math 1 (7 * PI / 4)
  = Ok {| real := cos (7 * PI / 4); imaginary := sin (7 * PI / 4);
          modulus := 1; argument := 7 * PI / 4 |}.
Proof.
  destruct (@constants_load reference_math) as (_ & _ & _ & H & _).
  apply (H 7). right. right. right. reflexivity.
Defined.



(** X18. The operations reject arguments of another type before they
    compute anything: [add], [subtract] and [multiply] fail on a value
    that is not a [ComplexNumber], and [power] and [scale] on a value that
    is not a number. *)
Theorem operations_reject_other_types {M : HostMath} (x : ComplexNumber) (v : JsValue) :
  (instanceofComplexNumber v = false ->
   add x v = Throw InvalidArgument /\
   subtract x v = Throw InvalidArgument /\
   multiply x v = Throw InvalidArgument) /\
  (typeofNumber v = false ->
   power x v = Throw InvalidArgument /\ scale x v = Throw InvalidArgument).
Proof.
  split; intros H; destruct v; try discriminate; repeat split; reflexivity.
Qed.

Lemma operations_reject_other_types_witness :
  @add reference_math EAST (JsNumber 1) = Throw InvalidArgument /\
  @subtract reference_math EAST (JsNumber 1) = Throw InvalidArgument /\
  @multiply reference_math EAST (JsNumber 1) = Throw InvalidArgument.
Proof.
  destruct (@operations_reject_other_types reference_math EAST (JsNumber 1)) as (H & _).
  apply H. reflexivity.
Defined.

(** X19. Negating twice rebuilds an instance that does not equal [ZERO]
    from its rectangular parts: the negation does not equal [ZERO] either,
    and its negation is [createRectangular(re, im)], which equals the
    instance.  The negation of [ZERO] is [ZERO]. *)
Theorem negate_involutive {M : HostMath} (x : ComplexNumber) :
  negate ZERO = Ok ZERO /\
  (Number.isFinite (re x) = true -> Number.isFinite (im x) = true ->
   equals x (JsComplexNumber ZERO) = Ok false ->
   exists n d : ComplexNumber,
     negate x = Ok n /\ equals n (JsComplexNumber ZERO) = Ok false /\
     negate n = Ok d /\ createRectangular (re x) (im x) = Ok d /\
     equals d (JsComplexNumber x) = Ok true).
Proof.
  split; [reflexivity|]. intros Hr Hi Hz.
  rewrite equals_ZERO in Hz. injection Hz as Hz.
  assert (Hd : createRectangular (re x) (im x)
               = Ok {| real := re x; imaginary := im x;
                       modulus := sqrt (re x * re x + im x * im x);
                       argument := storedArgument (re x) (im x) |}).
  { apply createRectangular_returns; now apply IEEE.finite_not_nan. }
  rewrite negate_instance, Hz.
  eexists. eexists. split.
  { apply createRectangular_returns; apply IEEE.finite_not_nan; now apply isFinite_opp. }
  split; [|split; [|split; [exact Hd|]]].
  - rewrite equals_ZERO. unfold re, im. cbn [real imaginary].
    rewrite !abs_opp. unfold re, im in Hz. now rewrite Hz.
  - rewrite negate_instance. unfold re, im. cbn [real imaginary].
    rewrite !abs_opp. unfold re, im in Hz. rewrite Hz.
    rewrite !Arithmetic.opp_involutive. exact Hd.
  - rewrite equals_instance. unfold re, im. cbn [real imaginary].
    unfold re, im in Hr, Hi. now rewrite !within_refl.
Qed.

Lemma negate_involutive_witness :
  exists n d : ComplexNumber,
    @negate reference_math EAST = Ok n /\ equals n (JsComplexNumber ZERO) = Ok false /\
    @negate reference_math n = Ok d /\
    @createRectangular reference_math (re EAST) (im EAST) = Ok d /\
    equals d (JsComplexNumber EAST) = Ok true.
Proof.
  destruct (@negate_involutive reference_math EAST) as (_ & H).
  apply H; reflexivity.
Defined.

(** X20. [EAST] is a multiplicative identity on the instances that satisfy
    the dual-representation invariant and whose argument lies in
    [0 <= arg < TWO_PI]: for such [x], [x.multiply(EAST)] returns an
    instance that equals [x]. *)
Theorem multiply_EAST_identity {M : HostMath} (x : ComplexNumber) :
  dualRepresentation x -> (0 <=? arg x) = true -> (arg x <? TWO_PI) = true ->
  exists p : ComplexNumber,
    multiply x (JsComplexNumber EAST) = Ok p /\
    equals p (JsComplexNumber x) = Ok true.
Proof.
  intros (Hr & Hi & Hm & Hz) H0 H1. unfold arg in H0, H1.
  rewrite multiply_EAST, createPolar_number, Hm.
  eexists. split; [reflexivity|].
  rewrite equals_instance. unfold re, im. cbn [real imaginary].
  destruct (within (modulus x) 0) eqn:Hw.
  - assert (E : reducedArgument (modulus x) (argument x + 0) = 0)
      by (unfold reducedArgument; now rewrite Hw).
    rewrite E. rewrite (Hz eq_refl) in Hr, Hi. now rewrite Hr, Hi.
  - destruct (reducedArgument_in_range (modulus x) (argument x) Hw H0 H1)
      as [E|[E1 E2]].
    + rewrite E. now rewrite Hr, Hi.
    + rewrite E2. rewrite E1 in Hr, Hi.
      rewrite cos_zero in Hr |- * by reflexivity.
      rewrite sin_zero in Hi |- * by reflexivity.
      rewrite within_zero_mul_sign. now rewrite Hr, Hi.
Qed.

Lemma multiply_EAST_identity_witness :
  exists p : ComplexNumber,
    @multiply reference_math EAST (JsComplexNumber EAST) = Ok p /\
    equals p (JsComplexNumber EAST) = Ok true.
Proof.
  apply (@multiply_EAST_identity reference_math EAST).
  - repeat split; try reflexivity.
  - reflexivity.
  - reflexivity.
Defined.


